(** * Persistence layer of the expense manager (services/db.ts, App.tsx,
      components/Summary.tsx)

    The IndexedDB object stores are finite maps from the key path value to
    the record; a request either succeeds or is failed by the engine; a
    promise is resolved, rejected or never settled. *)

From Stdlib Require Import ZArith QArith String Ascii List Sorting.Sorted.
From stdpp Require Import base option list sorting strings gmap fin_maps.

Local Open Scope string_scope.
Local Open Scope Z_scope.

(** ** types.ts *)

Inductive PaymentMethod := DEBIT | CREDIT.

Module Transaction.
Record t := mk {
  id : string;
  description : string;
  amount : Q;          (* a number, stored and read back as it is *)
  method : PaymentMethod;
  date : string;       (* YYYY-MM-DD *)
  time : string;       (* HH:MM *)
  createdAt : Z        (* Date.now() at creation, milliseconds *)
}.
End Transaction.

Module MonthlyBudget.
Record t := mk {
  month : string;      (* YYYY-MM *)
  limit : Q            (* a number, only ever compared with 0 *)
}.
End MonthlyBudget.

(** A backup object as it reaches the code at run time: [JSON.parse] may
    hand over an object with any of the fields absent, [None] stands for
    an absent ([undefined]) field. *)
Module BackupData.
Record t := mk {
  version : option Z;
  timestamp : option Z;
  transactions : option (list Transaction.t);
  budgets : option (list MonthlyBudget.t)
}.
(** The object literal [{}]. *)
Definition empty_object : t := mk None None None None.
End BackupData.

(** ** JavaScript values used by the code *)

(** Truthiness of a string: only the empty string is falsy. *)
Definition truthy (s : string) : bool :=
  match s with EmptyString => false | String _ _ => true end.

(** Truthiness of a field that holds an array when it is there. *)
Definition present {A} (field : option A) : bool :=
  match field with Some _ => true | None => false end.

(** [a.localeCompare(b)]: negative, zero or positive.  The definition
    computes the order of the code units.  The collation of the platform
    is that order on two strings of one shape that differ in digits only,
    as two dates YYYY-MM-DD or two times HH:MM do, and between the empty
    string and any other; it is another order elsewhere (it reads "1:00"
    before "12:00", the code units do not).  What is proved of an order
    is therefore stated of strings of those shapes. *)
Definition localeCompare (a b : string) : Z :=
  match String.compare a b with Lt => -1 | Eq => 0 | Gt => 1 end.

(** [Array.prototype.sort(cmp)]: [a] goes before [b] when [cmp a b < 0],
    elements that compare equal keep their relative order.  The language
    fixes the result only for a consistent comparator; this is the stable
    insertion sort. *)
Fixpoint sort_insert {A} (cmp : A → A → Z) (x : A) (l : list A) : list A :=
  match l with
  | [] => [x]
  | y :: l' => if cmp x y <=? 0 then x :: l else y :: sort_insert cmp x l'
  end.

Definition sort {A} (cmp : A → A → Z) (l : list A) : list A :=
  foldr (sort_insert cmp) [] l.

(** A JS number that may be [NaN], as [parseFloat] returns it. *)
Inductive number := NaN | Num (q : Q).

Definition isNaN (n : number) : bool :=
  match n with NaN => true | Num _ => false end.

(** [n >= 0]; every comparison with [NaN] is false. *)
Definition ge0 (n : number) : bool :=
  match n with NaN => false | Num q => Qle_bool 0 q end.

(** ** The storage engine *)

Inductive Error :=
| ConstraintError                (* add on a key that is already stored *)
| EngineError (name : string)    (* any other failure the engine reports *)
| TypeError                      (* property access on undefined *)
| InvalidBackupFile              (* new Error("Arquivo de backup inválido.") *)
| Null.                          (* null, where an error object is expected *)

Inductive StoreName := STORE_TRANSACTIONS | STORE_BUDGETS.

Inductive RequestKind :=
| KAdd | KPut | KDelete | KClear | KGet | KGetAll | KIndexGetAll.

(** What the engine does to the requests it is sent: [open_error] fails
    [indexedDB.open], [request_error s k] fails every request of kind [k]
    on object store [s]. *)
Record Engine := {
  open_error : option Error;
  request_error : StoreName → RequestKind → option Error
}.

Definition healthy : Engine :=
  {| open_error := None; request_error := fun _ _ => None |}.

(** The database created by [onupgradeneeded]: object store 'transactions'
    with key path 'id' and object store 'budgets' with key path 'month'. *)
Record IDBDatabase := {
  transactions_store : gmap string Transaction.t;
  budgets_store : gmap string MonthlyBudget.t
}.

Definition empty_db : IDBDatabase :=
  {| transactions_store := ∅; budgets_store := ∅ |}.

(** Every record is stored under the value of its key path. *)
Definition keyed {V} (keyPath : V → string) (m : gmap string V) : Prop :=
  ∀ k v, m !! k = Some v → keyPath v = k.

Definition well_formed (d : IDBDatabase) : Prop :=
  keyed Transaction.id (transactions_store d) ∧
  keyed MonthlyBudget.month (budgets_store d).

(** Write requests. *)
Inductive Request :=
| AddTransaction (t : Transaction.t)
| PutTransaction (t : Transaction.t)
| DeleteTransaction (id : string)
| ClearTransactions
| AddBudget (b : MonthlyBudget.t)
| PutBudget (b : MonthlyBudget.t)
| ClearBudgets.

Definition request_target (r : Request) : StoreName * RequestKind :=
  match r with
  | AddTransaction _ => (STORE_TRANSACTIONS, KAdd)
  | PutTransaction _ => (STORE_TRANSACTIONS, KPut)
  | DeleteTransaction _ => (STORE_TRANSACTIONS, KDelete)
  | ClearTransactions => (STORE_TRANSACTIONS, KClear)
  | AddBudget _ => (STORE_BUDGETS, KAdd)
  | PutBudget _ => (STORE_BUDGETS, KPut)
  | ClearBudgets => (STORE_BUDGETS, KClear)
  end.

(** [store.add(v)]: ConstraintError when the key is taken. *)
Definition store_add {V} (keyPath : V → string) (v : V) (m : gmap string V)
  : Error + gmap string V :=
  match m !! keyPath v with
  | Some _ => inl ConstraintError
  | None => inr (<[keyPath v := v]> m)
  end.

(** [store.put(v)]: insert or overwrite. *)
Definition store_put {V} (keyPath : V → string) (v : V) (m : gmap string V)
  : gmap string V := <[keyPath v := v]> m.

Definition with_transactions (d : IDBDatabase) m : IDBDatabase :=
  {| transactions_store := m; budgets_store := budgets_store d |}.

Definition with_budgets (d : IDBDatabase) m : IDBDatabase :=
  {| transactions_store := transactions_store d; budgets_store := m |}.

Definition apply_request (r : Request) (d : IDBDatabase) : Error + IDBDatabase :=
  match r with
  | AddTransaction t =>
      match store_add Transaction.id t (transactions_store d) with
      | inl e => inl e
      | inr m => inr (with_transactions d m)
      end
  | PutTransaction t =>
      inr (with_transactions d (store_put Transaction.id t (transactions_store d)))
  | DeleteTransaction k =>
      inr (with_transactions d (delete k (transactions_store d)))
  | ClearTransactions => inr (with_transactions d ∅)
  | AddBudget b =>
      match store_add MonthlyBudget.month b (budgets_store d) with
      | inl e => inl e
      | inr m => inr (with_budgets d m)
      end
  | PutBudget b =>
      inr (with_budgets d (store_put MonthlyBudget.month b (budgets_store d)))
  | ClearBudgets => inr (with_budgets d ∅)
  end.

Definition exec_request (eng : Engine) (r : Request) (d : IDBDatabase)
  : Error + IDBDatabase :=
  match request_error eng (request_target r).1 (request_target r).2 with
  | Some e => inl e
  | None => apply_request r d
  end.

(** The requests placed on one IndexedDB transaction, in the order they
    were placed.  The first failing request stops the run. *)
Fixpoint exec_requests (eng : Engine) (rs : list Request) (d : IDBDatabase)
  : Error + IDBDatabase :=
  match rs with
  | [] => inr d
  | r :: rs' =>
      match exec_request eng r d with
      | inl e => inl e
      | inr d' => exec_requests eng rs' d'
      end
  end.

(** A readwrite transaction none of whose requests handles its own error:
    a failing request aborts the transaction, which undoes all of it. *)
Definition run_transaction (eng : Engine) (rs : list Request) (d : IDBDatabase)
  : option Error * IDBDatabase :=
  match exec_requests eng rs d with
  | inl e => (Some e, d)
  | inr d' => (None, d')
  end.

(** Order of the records of an object store: by key. *)
Definition key_le {V} (keyPath : V → string) (a b : V) : Prop :=
  String.le (keyPath a) (keyPath b).

Global Instance key_le_dec {V} (keyPath : V → string) : RelDecision (key_le keyPath).
Proof. intros a b. unfold key_le. apply _. Defined.

(** [store.getAll()] *)
Definition store_getAll {V} (keyPath : V → string) (m : gmap string V) : list V :=
  merge_sort (key_le keyPath) (map_to_list m).*2.

(** Order of the records of the 'date' index: by date, then by key. *)
Definition date_index_le (a b : Transaction.t) : Prop :=
  match String.compare (Transaction.date a) (Transaction.date b) with
  | Lt => True
  | Eq => String.le (Transaction.id a) (Transaction.id b)
  | Gt => False
  end.

Global Instance date_index_le_dec : RelDecision date_index_le.
Proof.
  intros a b. unfold date_index_le.
  destruct (String.compare _ _); apply _.
Defined.

(** [IDBKeyRange.bound(lower, upper)], both ends included. *)
Definition in_range (lower upper key : string) : bool :=
  String.leb lower key && String.leb key upper.

(** [store.index('date').getAll(range)] *)
Definition date_index_getAll (lower upper : string)
    (m : gmap string Transaction.t) : list Transaction.t :=
  merge_sort date_index_le
    (filter (λ t, in_range lower upper (Transaction.date t) = true)
            (map_to_list m).*2).

(** ** Promises *)

Inductive Promise (A : Type) :=
| Resolved (a : A)
| Rejected (e : Error)
| Pending.                       (* never settled *)
Arguments Resolved {A} a.
Arguments Rejected {A} e.
Arguments Pending {A}.

(** An asynchronous operation on the database: how its promise ends and
    what the database holds afterwards. *)
Definition Async (A : Type) : Type := IDBDatabase → Promise A * IDBDatabase.

(** [await p] followed by the rest of an async function: a rejection is
    thrown on, a promise that never settles suspends the function for good. *)
Definition bind {A B} (p : Async A) (k : A → Async B) : Async B :=
  λ d, match p d with
       | (Resolved a, d') => k a d'
       | (Rejected e, d') => (Rejected e, d')
       | (Pending, d') => (Pending, d')
       end.

Notation "'await' x ':=' p 'in' k" := (bind p (λ x, k))
  (at level 10, x name, p at level 100, k at level 200, only parsing).

(** [Promise.all([p, q])] of two promises. *)
Definition Promise_all {A B} (p : Promise A) (q : Promise B) : Promise (A * B) :=
  match p, q with
  | Rejected e, _ => Rejected e
  | _, Rejected e => Rejected e
  | Resolved a, Resolved b => Resolved (a, b)
  | _, _ => Pending
  end.

Definition openDB (eng : Engine) : Async unit :=
  λ d, match open_error eng with
       | Some e => (Rejected e, d)
       | None => (Resolved tt, d)
       end.

(** A promise wired to the request: resolved by [request.onsuccess],
    rejected by [request.onerror] with [request.error]. *)
Definition write_promise (eng : Engine) (rs : list Request) : Async unit :=
  λ d, match run_transaction eng rs d with
       | (Some e, d') => (Rejected e, d')
       | (None, d') => (Resolved tt, d')
       end.

(** A promise wired to the transaction: resolved by [tx.oncomplete],
    rejected by [tx.onerror] with [tx.error].  The error event of the
    failed request reaches the transaction before the transaction aborts,
    and until then its [error] is null: that is the value the promise is
    rejected with. *)
Definition transaction_promise (eng : Engine) (rs : list Request) : Async unit :=
  λ d, match run_transaction eng rs d with
       | (Some _, d') => (Rejected Null, d')
       | (None, d') => (Resolved tt, d')
       end.

(** ** services/db.ts *)

Module db.

Definition addTransaction (eng : Engine) (transaction : Transaction.t) : Async unit :=
  await _ := openDB eng in
  write_promise eng [AddTransaction transaction].

Definition updateTransaction (eng : Engine) (transaction : Transaction.t) : Async unit :=
  await _ := openDB eng in
  write_promise eng [PutTransaction transaction].

Definition deleteTransaction (eng : Engine) (id : string) : Async unit :=
  await _ := openDB eng in
  write_promise eng [DeleteTransaction id].

(** The comparator handed to [results.sort]. *)
Definition compare (a b : Transaction.t) : Z :=
  if negb (Transaction.date a =? Transaction.date b)%string
  then localeCompare (Transaction.date b) (Transaction.date a)
  else if truthy (Transaction.time a) && truthy (Transaction.time b)
          && negb (Transaction.time a =? Transaction.time b)%string
  then localeCompare (Transaction.time b) (Transaction.time a)
  else Transaction.createdAt b - Transaction.createdAt a.

Definition getTransactionsByMonth (eng : Engine) (month : string)
  : Async (list Transaction.t) :=
  await _ := openDB eng in
  λ d,
    let start := month ++ "-01" in
    let end_ := month ++ "-31" in
    match request_error eng STORE_TRANSACTIONS KIndexGetAll with
    | Some e => (Rejected e, d)
    | None =>
        let results := date_index_getAll start end_ (transactions_store d) in
        (Resolved (sort compare results), d)
    end.

Definition setMonthlyBudget (eng : Engine) (budget : MonthlyBudget.t) : Async unit :=
  await _ := openDB eng in
  write_promise eng [PutBudget budget].

Definition getMonthlyBudget (eng : Engine) (month : string) : Async Q :=
  await _ := openDB eng in
  λ d,
    match request_error eng STORE_BUDGETS KGet with
    | Some e => (Rejected e, d)
    | None =>
        (Resolved (match budgets_store d !! month with
                   | Some data => MonthlyBudget.limit data
                   | None => 0%Q
                   end), d)
    end.

Definition clearAllData (eng : Engine) : Async unit :=
  await _ := openDB eng in
  transaction_promise eng [ClearTransactions; ClearBudgets].

(** [getStoreData]: the promise has a success handler only, a failed
    [getAll] leaves it unsettled.  The single-file build of the app has
    the same function. *)
Definition getStoreData {V} (eng : Engine) (storeName : StoreName)
    (content : IDBDatabase → list V) : Async (list V) :=
  λ d, match request_error eng storeName KGetAll with
       | Some _ => (Pending, d)
       | None => (Resolved (content d), d)
       end.

Definition exportDatabase (eng : Engine) (now : Z) : Async BackupData.t :=
  await _ := openDB eng in
  await both := (λ d,
      (Promise_all
         (getStoreData eng STORE_TRANSACTIONS
            (λ d, store_getAll Transaction.id (transactions_store d)) d).1
         (getStoreData eng STORE_BUDGETS
            (λ d, store_getAll MonthlyBudget.month (budgets_store d)) d).1,
       d)) in
  λ d, (Resolved (BackupData.mk (Some 1) (Some now)
                    (Some both.1) (Some both.2)), d).

(** The executor of the promise of [importDatabase]: both [forEach]
    loops place their requests before any of them runs.  A [forEach] on
    an absent field throws, which rejects the promise and leaves the
    requests already placed on the transaction to run to its end. *)
Definition importDatabase (eng : Engine) (data : BackupData.t) : Async unit :=
  await _ := clearAllData eng in
  await _ := openDB eng in
  λ d,
    match BackupData.transactions data with
    | None => (Rejected TypeError, d)
    | Some ts =>
        match BackupData.budgets data with
        | None =>
            (Rejected TypeError,
             (run_transaction eng (map AddTransaction ts) d).2)
        | Some bs =>
            transaction_promise eng (map AddTransaction ts ++ map AddBudget bs) d
        end
    end.

End db.

(** What the form hands over: a transaction without [id] and [createdAt]. *)
Module FormData.
Record t := mk {
  description : string;
  amount : Q;
  method : PaymentMethod;
  date : string;
  time : string
}.
End FormData.

(** [s.replace(/\D/g, '')]: the decimal digits of [s]. *)
Definition is_digit (c : ascii) : bool :=
  (48 <=? nat_of_ascii c)%nat && (nat_of_ascii c <=? 57)%nat.

Fixpoint only_digits (s : string) : string :=
  match s with
  | EmptyString => EmptyString
  | String c s' => if is_digit c then String c (only_digits s') else only_digits s'
  end.

(** [s.split('-')] *)
Fixpoint split_dash (s : string) : list string :=
  match s with
  | EmptyString => [EmptyString]
  | String c s' =>
      if Ascii.eqb c "-"%char then EmptyString :: split_dash s'
      else match split_dash s' with
           | h :: t => String c h :: t
           | [] => [String c EmptyString]
           end
  end.

(** A value inside a template literal; a missing one prints as
    "undefined". *)
Definition interpolate (v : option string) : string :=
  match v with Some s => s | None => "undefined" end.

(** ** App.tsx *)

Module App.

(** The body of [reader.onload] in [handleFileChange], from the parsed
    file on; [Rejected e] is the error that reaches its [catch]. *)
Definition handleFileChange (eng : Engine) (data : BackupData.t) : Async unit :=
  if negb (present (BackupData.transactions data))
     || negb (present (BackupData.budgets data))
  then λ d, (Rejected InvalidBackupFile, d)
  else db.importDatabase eng data.

Definition handleUpdateLimit (eng : Engine) (currentMonth : string) (newLimit : Q)
  : Async unit :=
  db.setMonthlyBudget eng (MonthlyBudget.mk currentMonth newLimit).

(** The state of the component that the handlers read and write. *)
Record State := {
  currentMonth : string;
  transactions : list Transaction.t;
  budget : Q;
  isLoading : bool;
  editingTransaction : option Transaction.t
}.

Definition setLoaded (st : State) (txs : list Transaction.t) (limit : Q) : State :=
  {| currentMonth := currentMonth st; transactions := txs; budget := limit;
     isLoading := false; editingTransaction := editingTransaction st |}.

Definition setIsLoading (st : State) (b : bool) : State :=
  {| currentMonth := currentMonth st; transactions := transactions st;
     budget := budget st; isLoading := b;
     editingTransaction := editingTransaction st |}.

Definition setEditingTransaction (st : State) (e : option Transaction.t) : State :=
  {| currentMonth := currentMonth st; transactions := transactions st;
     budget := budget st; isLoading := isLoading st; editingTransaction := e |}.

Definition setBudget (st : State) (limit : Q) : State :=
  {| currentMonth := currentMonth st; transactions := transactions st;
     budget := limit; isLoading := isLoading st;
     editingTransaction := editingTransaction st |}.

(** [loadData]: the two reads run side by side; an error is logged and
    the lists on display stay; a promise that never settles would leave
    the loading flag up. *)
Definition loadData (eng : Engine) (st : State) (d : IDBDatabase)
  : State * IDBDatabase :=
  let st := setIsLoading st true in
  let '(txs, d1) := db.getTransactionsByMonth eng (currentMonth st) d in
  let '(limit, d2) := db.getMonthlyBudget eng (currentMonth st) d1 in
  match Promise_all txs limit with
  | Resolved (txs, limit) => (setLoaded st txs limit, d2)
  | Rejected _ => (setIsLoading st false, d2)
  | Pending => (st, d2)
  end.

(** An async handler: how its promise ends, the state of the component
    and what the database holds once everything it started has ended. *)
Definition Handler : Type :=
  State → IDBDatabase → Promise unit * State * IDBDatabase.

(** [await p; rest]: the rest runs only when [p] is fulfilled. *)
Definition after (p : Async unit) (rest : Handler) : Handler :=
  λ st d,
    match p d with
    | (Resolved _, d') => rest st d'
    | (Rejected e, d') => (Rejected e, st, d')
    | (Pending, d') => (Pending, st, d')
    end.

Definition reload (eng : Engine) : Handler :=
  λ st d, let '(st', d') := loadData eng st d in (Resolved tt, st', d').

(** [uuid] is the value of [crypto.randomUUID()], [now] of [Date.now()]. *)
Definition handleAddTransaction (eng : Engine) (uuid : string) (now : Z)
    (data : FormData.t) : Handler :=
  let newTransaction :=
    Transaction.mk uuid (FormData.description data) (FormData.amount data)
      (FormData.method data) (FormData.date data) (FormData.time data) now in
  after (db.addTransaction eng newTransaction) (reload eng).

Definition handleUpdateTransaction (eng : Engine) (now : Z)
    (id : string) (data : FormData.t) : Handler :=
  λ st,
    let original :=
      find (λ t, (Transaction.id t =? id)%string) (transactions st) in
    let updatedTransaction :=
      Transaction.mk id (FormData.description data) (FormData.amount data)
        (FormData.method data) (FormData.date data) (FormData.time data)
        (match original with
         | Some o => Transaction.createdAt o
         | None => now
         end) in
    after (db.updateTransaction eng updatedTransaction)
      (λ st, reload eng (setEditingTransaction st None)) st.

(** [confirm] is the answer to [window.confirm]. *)
Definition handleDeleteTransaction (eng : Engine) (confirm : bool) (id : string)
  : Handler :=
  λ st,
    if negb confirm then λ d, (Resolved tt, st, d)
    else
      after (db.deleteTransaction eng id)
        (λ st,
           let st :=
             match editingTransaction st with
             | Some e =>
                 if (Transaction.id e =? id)%string
                 then setEditingTransaction st None else st
             | None => st
             end in
           reload eng st) st.

Definition handleEditClick (t : Transaction.t) (st : State) : State :=
  setEditingTransaction st (Some t).

(** The second question is asked only after a yes to the first. *)
Definition handleClearData (eng : Engine) (confirm1 confirm2 : bool) : Handler :=
  λ st,
    if confirm1 then
      if confirm2 then after (db.clearAllData eng) (reload eng) st
      else λ d, (Resolved tt, st, d)
    else λ d, (Resolved tt, st, d).

(** Numbers in [changeMonth].  [month - 1 + offset]: anything done with
    [NaN] is [NaN]. *)
Definition monthIndex (month : number) (offset : Z) : number :=
  match month with
  | NaN => NaN
  | Num q => Num (q - 1 + inject_Z offset)
  end.

(** The integer a [Date] makes of a number: the fraction is dropped. *)
Definition truncate (q : Q) : Z := Z.quot (Qnum q) (Zpos (Qden q)).

Definition digit (n : Z) : ascii := ascii_of_nat (48 + Z.to_nat (n mod 10)).

(** The last [width] decimal digits of [n]. *)
Fixpoint pad (width : nat) (n : Z) : string :=
  match width with
  | O => EmptyString
  | S w => (pad w (n / 10)%Z ++ String (digit n) EmptyString)%string
  end.

(** The year in [toISOString()]: four digits from 0 to 9999, a sign and
    six digits otherwise. *)
Definition isoYear (year : Z) : string :=
  if (0 <=? year) && (year <=? 9999) then pad 4 year
  else ((if (year <? 0)%Z then "-" else "+") ++ pad 6 (Z.abs year))%string.

(** [toISOString().slice(0, 7)] of a date in month [month] (0 to 11) of
    [year], both in UTC. *)
Definition isoSlice (year month : Z) : string :=
  substring 0 7 (isoYear year ++ "-" ++ pad 2 (month + 1)).

Definition setCurrentMonth (st : State) (m : string) : State :=
  {| currentMonth := m; transactions := transactions st; budget := budget st;
     isLoading := isLoading st; editingTransaction := editingTransaction st |}.

Section ChangeMonth.
(** [Number] is the platform's.  [zone] is the number of minutes by which
    the local time is ahead of UTC at the midnight that [new Date] makes,
    less than a day either way; the year is taken to be in the range of
    [Date]. *)
Variable Number : string → number.
Variable zone : Z.

(** [None]: the date is invalid and [toISOString] throws. *)
Definition changeMonth (offset : Z) (st : State) : option State :=
  let parts := split_dash (currentMonth st) in
  let year := match parts !! 0%nat with Some s => Number s | None => NaN end in
  let month := match parts !! 1%nat with Some s => Number s | None => NaN end in
  match year, monthIndex month offset with
  | Num y, Num m =>
      (* new Date(year, month - 1 + offset, 1): local midnight of the
         first day of the month, the month index carried into the year *)
      let yi := truncate y in
      let yr := if (0 <=? yi) && (yi <=? 99) then 1900 + yi else yi in
      let mi := truncate m in
      let ym := yr + mi / 12 in
      let mn := mi mod 12 in
      (* in UTC that instant is on the same day, or on the day before,
         the last of the month before, when local time is ahead *)
      let months := 12 * ym + mn in
      let utc := if 0 <? zone then months - 1 else months in
      let newMonthStr := isoSlice (utc / 12) (utc mod 12) in
      Some (setEditingTransaction (setCurrentMonth st newMonthStr) None)
  | _, _ => None
  end.
End ChangeMonth.

End App.

(** ** components/Summary.tsx *)

Module Summary.

(** [s.replace(/\./g, '')] *)
Fixpoint remove_dots (s : string) : string :=
  match s with
  | EmptyString => EmptyString
  | String c s' =>
      if Ascii.eqb c "."%char then remove_dots s' else String c (remove_dots s')
  end.

(** [s.replace(',', '.')]: the first comma only. *)
Fixpoint replace_comma (s : string) : string :=
  match s with
  | EmptyString => EmptyString
  | String c s' =>
      if Ascii.eqb c ","%char then String "."%char s' else String c (replace_comma s')
  end.

Section HandleSave.
(** [parseFloat] is the platform's. *)
Variable parseFloat : string → number.
Variable onUpdateLimit : Q → Async unit.

(** [None]: [onUpdateLimit] was not called; [Some p]: it was, and its
    promise ends as [p]. *)
Definition handleSave (editValue : string)
  : IDBDatabase → option (Promise unit) * IDBDatabase :=
  λ d,
    if negb (truthy editValue) then (None, d)
    else
      let rawValue := replace_comma (remove_dots editValue) in
      let val := parseFloat rawValue in
      match val with
      | Num q =>
          if negb (isNaN val) && ge0 val
          then let '(p, d') := onUpdateLimit q d in (Some p, d')
          else (None, d)
      | NaN => (None, d)
      end.
End HandleSave.

(** [handleEditChange]: only the digits typed count.  [format] is
    [(parseInt(value, 10) / 100).toLocaleString('pt-BR', ...)] as a
    function of the digit string. *)
Definition handleEditChange (format : string → string) (typed : string) : string :=
  let value := only_digits typed in
  if (value =? "")%string then "" else format value.

End Summary.

(** ** components/TransactionForm.tsx *)

Module TransactionForm.

(** The fields of the form. *)
Record Form := {
  description : string;
  amount : string;
  method : PaymentMethod;
  date : string;
  time : string
}.

Definition setAmount (f : Form) (a : string) : Form :=
  {| description := description f; amount := a; method := method f;
     date := date f; time := time f |}.

(** [val <= 0]; every comparison with [NaN] is false. *)
Definition le0 (n : number) : bool :=
  match n with NaN => false | Num q => Qle_bool q 0 end.

Section Form.
(** [parseFloat] and the number formatting are the platform's; [onAdd]
    and [onUpdate] are the props of the component. *)
Variable parseFloat : string → number.
Variable format : string → string.
Context {R : Type}.
Variable onAdd : FormData.t → R.
Variable onUpdate : string → FormData.t → R.

Definition handleAmountChange (typed : string) (f : Form) : Form :=
  let value := only_digits typed in
  if (value =? "")%string then setAmount f "" else setAmount f (format value).

(** [None]: returned without calling a prop.  [localDate] and [localTime]
    are what [setNow] reads from the clock. *)
Definition handleSubmit (initialData : option Transaction.t)
    (localDate localTime : string) (f : Form) : option R * Form :=
  if negb (truthy (description f)) || negb (truthy (amount f))
     || negb (truthy (date f)) || negb (truthy (time f))
  then (None, f)
  else
    let rawValue := Summary.replace_comma (Summary.remove_dots (amount f)) in
    let val := parseFloat rawValue in
    match val with
    | NaN => (None, f)
    | Num q =>
        if isNaN val || le0 val then (None, f)
        else
          let formData :=
            FormData.mk (description f) q (method f) (date f) (time f) in
          match initialData with
          | Some i => (Some (onUpdate (Transaction.id i) formData), f)
          | None =>
              (Some (onAdd formData),
               {| description := ""; amount := ""; method := method f;
                  date := localDate; time := localTime |})
          end
    end.
End Form.

End TransactionForm.

(** ** components/TransactionList.tsx *)

Module TransactionList.

Definition formatDate (dateStr : string) : string :=
  let parts := split_dash dateStr in
  let month := parts !! 1%nat in
  let day := parts !! 2%nat in
  interpolate day ++ "/" ++ interpolate month.

End TransactionList.

(** ** The single-file build of the app

    It has its own copy of the database service, [dbService], and its
    own handlers.  The [importDatabase] of [dbService] is that of
    services/db.ts word for word; its [getMonthlyBudget] is not. *)

Module SingleFile.

(** [resolve((request.result as MonthlyBudget)?.limit || 0)] *)
Definition getMonthlyBudget (eng : Engine) (month : string) : Async Q :=
  await _ := openDB eng in
  λ d,
    match request_error eng STORE_BUDGETS KGet with
    | Some e => (Rejected e, d)
    | None =>
        (Resolved (match budgets_store d !! month with
                   | Some data =>
                       if Qeq_bool (MonthlyBudget.limit data) 0 then 0%Q
                       else MonthlyBudget.limit data
                   | None => 0%Q
                   end), d)
    end.

(** [handleFileChange] with a file chosen: [confirm] is the answer to
    [window.confirm], [data] the parsed file.  [None]: returned before
    reading the file; [Some p]: the import was called and ended as [p]. *)
Definition handleFileChange (eng : Engine) (confirm : bool) (data : BackupData.t)
  : IDBDatabase → option (Promise unit) * IDBDatabase :=
  λ d,
    if negb confirm then (None, d)
    else let '(p, d') := db.importDatabase eng data d in (Some p, d').

End SingleFile.

(** ** Vocabulary of the properties *)

(** The object store holds the record [v]. *)
Definition holds {V} (m : gmap string V) (v : V) : Prop :=
  ∃ k, m !! k = Some v.

(** The object store that holds the records of [l], each under its key. *)
Definition records_map {V} (keyPath : V → string) (l : list V) : gmap string V :=
  list_to_map ((λ v, (keyPath v, v)) <$> l).

Definition str_lt (a b : string) : Prop := String.compare a b = Lt.






(** [getTransactionsByMonth month] hands back a list with [t] in it. *)
Definition returns (d : IDBDatabase) (month : string) (t : Transaction.t) : Prop :=
  ∃ out, db.getTransactionsByMonth healthy month d = (Resolved out, d) ∧ t ∈ out.

(** [getTransactionsByMonth month] hands back a list without [t]. *)
Definition omits (d : IDBDatabase) (month : string) (t : Transaction.t) : Prop :=
  ∃ out, db.getTransactionsByMonth healthy month d = (Resolved out, d) ∧ t ∉ out.

(** An engine that fails the [getAll] requests on object store [s] only. *)
Definition getAll_fails (s : StoreName) : Engine :=
  {| open_error := None;
     request_error := λ s' k,
       match s, s', k with
       | STORE_TRANSACTIONS, STORE_TRANSACTIONS, KGetAll
       | STORE_BUDGETS, STORE_BUDGETS, KGetAll => Some (EngineError "UnknownError")
       | _, _, _ => None
       end |}.




(** A transaction as the form lets one through: a description, a date
    and a time that are not empty, and an amount above 0. *)
Definition entered (t : Transaction.t) : Prop :=
  Transaction.description t ≠ "" ∧ Transaction.date t ≠ "" ∧
  Transaction.time t ≠ "" ∧ (0 < Transaction.amount t)%Q.

(** A table of one value of [parseFloat], for the text "12.50". *)
Definition parseFloat_amount (s : string) : number :=
  if (s =? "12.50")%string then Num 12.5 else NaN.

(** A table of two values of [Number]. *)
Definition Number_sample (s : string) : number :=
  if (s =? "2024")%string then Num 2024
  else if (s =? "12")%string then Num 12
  else NaN.

(** The string has a hyphen in it. *)
Fixpoint has_dash (s : string) : bool :=
  match s with
  | EmptyString => false
  | String c s' => Ascii.eqb c "-"%char || has_dash s'
  end.

(** The request [r] is sent to object store [s]. *)
Definition on_store (s : StoreName) (r : Request) : Prop := (request_target r).1 = s.

(** A table of two values of [parseFloat]. *)
Definition parseFloat_sample (s : string) : number :=
  if (s =? "-5.00")%string then Num (-5)
  else if (s =? "1250.50")%string then Num 1250.5
  else NaN.

(** ** Object stores *)

Section ObjectStore.
Context {V : Type} (keyPath : V → string).
Implicit Types (m : gmap string V) (v : V) (l : list V).

Lemma keyed_empty : keyed keyPath (∅ : gmap string V).
Proof. intros k v. by rewrite lookup_empty. Qed.

Lemma keyed_put m v : keyed keyPath m → keyed keyPath (store_put keyPath v m).
Proof.
  intros Hm k w. unfold store_put. rewrite lookup_insert.
  case_decide; [naive_solver | apply Hm].
Qed.

Lemma keyed_delete m k : keyed keyPath m → keyed keyPath (delete k m).
Proof.
  intros Hm k' w. rewrite lookup_delete. case_decide; [done | apply Hm].
Qed.

Lemma elem_of_store_getAll m v : v ∈ store_getAll keyPath m ↔ holds m v.
Proof.
  unfold store_getAll, holds. rewrite merge_sort_Permutation, list_elem_of_fmap.
  split.
  - intros [[k w] [-> Hin]]. exists k. by apply elem_of_map_to_list.
  - intros [k Hk]. exists (k, v). split; [done | by apply elem_of_map_to_list].
Qed.

(** The listing of a keyed store pairs back to the store itself. *)
Lemma keyed_pairs m :
  keyed keyPath m → (λ v, (keyPath v, v)) <$> (map_to_list m).*2 = map_to_list m.
Proof.
  intros Hm. rewrite <-list_fmap_compose.
  rewrite <-(list_fmap_id (map_to_list m)) at 2.
  apply list_fmap_ext. intros i [k v] Hi. simpl.
  f_equal. apply Hm, elem_of_map_to_list. by eapply list_elem_of_lookup_2.
Qed.

Lemma getAll_keys_NoDup m :
  keyed keyPath m → NoDup (keyPath <$> store_getAll keyPath m).
Proof.
  intros Hm. unfold store_getAll. rewrite merge_sort_Permutation.
  replace (keyPath <$> (map_to_list m).*2) with (map_to_list m).*1.
  - apply NoDup_fst_map_to_list.
  - rewrite <-(keyed_pairs m Hm) at 1.
    rewrite <-list_fmap_compose. by apply list_fmap_ext.
Qed.

Lemma records_map_getAll m :
  keyed keyPath m → records_map keyPath (store_getAll keyPath m) = m.
Proof.
  intros Hm. unfold records_map, store_getAll.
  rewrite <-(list_to_map_to_list m) at 2.
  rewrite <-(keyed_pairs m Hm) at 2.
  symmetry. apply list_to_map_proper.
  - rewrite (keyed_pairs m Hm). apply NoDup_fst_map_to_list.
  - by rewrite merge_sort_Permutation.
Qed.

Lemma records_map_lookup l k v :
  NoDup (keyPath <$> l) →
  records_map keyPath l !! k = Some v ↔ v ∈ l ∧ keyPath v = k.
Proof.
  intros Hnd. unfold records_map. rewrite <-elem_of_list_to_map.
  - rewrite list_elem_of_fmap. split.
    + intros (w & Heq & Hw). by simplify_eq.
    + intros [Hv <-]. by exists v.
  - by rewrite <-list_fmap_compose.
Qed.

Lemma records_map_fresh l k :
  k ∉ keyPath <$> l → records_map keyPath l !! k = None.
Proof.
  intros Hk. apply not_elem_of_list_to_map. by rewrite <-list_fmap_compose.
Qed.

Lemma keyed_records_map l : NoDup (keyPath <$> l) → keyed keyPath (records_map keyPath l).
Proof. intros Hnd k v Hk. apply records_map_lookup in Hk; [tauto | done]. Qed.

Lemma holds_records_map l v :
  NoDup (keyPath <$> l) → holds (records_map keyPath l) v ↔ v ∈ l.
Proof.
  intros Hnd. unfold holds. split.
  - intros [k Hk]. apply records_map_lookup in Hk; [tauto | done].
  - intros Hv. exists (keyPath v). by apply records_map_lookup.
Qed.

(** Adding the records of [l] one after the other to a store that has
    none of their keys. *)
Lemma store_add_fresh v m :
  m !! keyPath v = None → store_add keyPath v m = inr (<[keyPath v := v]> m).
Proof. intros Hv. unfold store_add. by rewrite Hv. Qed.

Lemma store_add_taken v w m :
  m !! keyPath v = Some w → store_add keyPath v m = inl ConstraintError.
Proof. intros Hv. unfold store_add. by rewrite Hv. Qed.

Lemma records_map_cons v l m :
  keyPath v ∉ keyPath <$> l →
  records_map keyPath l ∪ <[keyPath v := v]> m = records_map keyPath (v :: l) ∪ m.
Proof.
  intros Hv. unfold records_map at 2. rewrite fmap_cons, list_to_map_cons.
  rewrite <-insert_union_l. symmetry. apply insert_union_r.
  by apply records_map_fresh.
Qed.
End ObjectStore.

(** ** Transactions of requests *)

Lemma exec_requests_app eng rs1 rs2 d :
  exec_requests eng (rs1 ++ rs2) d =
  match exec_requests eng rs1 d with
  | inl e => inl e
  | inr d' => exec_requests eng rs2 d'
  end.
Proof.
  revert d. induction rs1 as [|r rs1 IH]; intros d; simpl; [done|].
  destruct (exec_request eng r d); [done | apply IH].
Qed.

Lemma exec_add_transactions eng ts d :
  request_error eng STORE_TRANSACTIONS KAdd = None →
  NoDup (Transaction.id <$> ts) →
  (∀ t, t ∈ ts → transactions_store d !! Transaction.id t = None) →
  exec_requests eng (map AddTransaction ts) d =
  inr (with_transactions d (records_map Transaction.id ts ∪ transactions_store d)).
Proof.
  intros Heng. revert d. induction ts as [|t ts IH]; intros d Hnd Hfresh; simpl.
  - unfold records_map. simpl. rewrite (left_id_L ∅ (∪)). by destruct d.
  - apply NoDup_cons in Hnd as [Ht Hnd].
    unfold exec_request. simpl. rewrite Heng.
    rewrite (store_add_fresh Transaction.id t) by (apply Hfresh; left).
    rewrite IH; [| done |].
    + simpl. unfold with_transactions. simpl. f_equal. f_equal.
      by apply records_map_cons.
    + intros t' Ht'. simpl. rewrite lookup_insert_ne.
      * apply Hfresh. by right.
      * intros Heq. apply Ht. rewrite Heq. by apply list_elem_of_fmap_2.
Qed.

Lemma exec_add_budgets eng bs d :
  request_error eng STORE_BUDGETS KAdd = None →
  NoDup (MonthlyBudget.month <$> bs) →
  (∀ b, b ∈ bs → budgets_store d !! MonthlyBudget.month b = None) →
  exec_requests eng (map AddBudget bs) d =
  inr (with_budgets d (records_map MonthlyBudget.month bs ∪ budgets_store d)).
Proof.
  intros Heng. revert d. induction bs as [|b bs IH]; intros d Hnd Hfresh; simpl.
  - unfold records_map. simpl. rewrite (left_id_L ∅ (∪)). by destruct d.
  - apply NoDup_cons in Hnd as [Hb Hnd].
    unfold exec_request. simpl. rewrite Heng.
    rewrite (store_add_fresh MonthlyBudget.month b) by (apply Hfresh; left).
    rewrite IH; [| done |].
    + simpl. unfold with_budgets. simpl. f_equal. f_equal.
      by apply records_map_cons.
    + intros b' Hb'. simpl. rewrite lookup_insert_ne.
      * apply Hfresh. by right.
      * intros Heq. apply Hb. rewrite Heq. by apply list_elem_of_fmap_2.
Qed.

(** A transaction is all or nothing. *)
Lemma run_transaction_atomic eng rs d e d' :
  run_transaction eng rs d = (Some e, d') → d' = d.
Proof.
  unfold run_transaction. destruct (exec_requests eng rs d); naive_solver.
Qed.

(** No request on one object store touches the other. *)
Lemma exec_requests_budgets_frame eng rs d d' :
  Forall (on_store STORE_TRANSACTIONS) rs →
  exec_requests eng rs d = inr d' → budgets_store d' = budgets_store d.
Proof.
  intros Hrs. revert d. induction Hrs as [|r rs Hr _ IH]; intros d; simpl.
  - by intros [= ->].
  - destruct (exec_request eng r d) as [e|d1] eqn:H1; [done|].
    intros H2. rewrite (IH _ H2). clear IH H2.
    unfold exec_request in H1. destruct (request_error _ _ _); [done|].
    destruct r; simpl in *; try discriminate Hr;
      repeat case_match; by simplify_eq.
Qed.

Lemma exec_requests_transactions_frame eng rs d d' :
  Forall (on_store STORE_BUDGETS) rs →
  exec_requests eng rs d = inr d' → transactions_store d' = transactions_store d.
Proof.
  intros Hrs. revert d. induction Hrs as [|r rs Hr _ IH]; intros d; simpl.
  - by intros [= ->].
  - destruct (exec_request eng r d) as [e|d1] eqn:H1; [done|].
    intros H2. rewrite (IH _ H2). clear IH H2.
    unfold exec_request in H1. destruct (request_error _ _ _); [done|].
    destruct r; simpl in *; try discriminate Hr;
      repeat case_match; by simplify_eq.
Qed.

Lemma write_promise_budgets_frame eng rs d :
  Forall (on_store STORE_TRANSACTIONS) rs →
  budgets_store (write_promise eng rs d).2 = budgets_store d.
Proof.
  intros Hrs. unfold write_promise, run_transaction.
  destruct (exec_requests eng rs d) eqn:H; simpl; [done|].
  by eapply exec_requests_budgets_frame.
Qed.

Lemma write_promise_transactions_frame eng rs d :
  Forall (on_store STORE_BUDGETS) rs →
  transactions_store (write_promise eng rs d).2 = transactions_store d.
Proof.
  intros Hrs. unfold write_promise, run_transaction.
  destruct (exec_requests eng rs d) eqn:H; simpl; [done|].
  by eapply exec_requests_transactions_frame.
Qed.

(** After [await openDB()] the function goes on only if the database opened. *)
Lemma bind_openDB {A} eng (k : Async A) d :
  bind (openDB eng) (λ _, k) d =
  match open_error eng with
  | Some e => (Rejected e, d)
  | None => k d
  end.
Proof. unfold bind, openDB. by destruct (open_error eng). Qed.

(** ** Record store *)

Section RecordStore.
Implicit Types (d : IDBDatabase) (t : Transaction.t) (b : MonthlyBudget.t).

Lemma keyed_lookup {V} (keyPath : V → string) (m : gmap string V) v :
  keyed keyPath m → holds m v → m !! keyPath v = Some v.
Proof. intros Hm [k Hk]. by rewrite (Hm k v Hk). Qed.

Lemma addTransaction_taken eng d t t0 :
  transactions_store d !! Transaction.id t = Some t0 →
  ∃ e, db.addTransaction eng t d = (Rejected e, d) ∧
       (eng = healthy → e = ConstraintError).
Proof.
  intros Ht. unfold db.addTransaction. rewrite bind_openDB.
  destruct (open_error eng) as [e|] eqn:Hopen.
  { exists e. split; [done|]. intros ->. discriminate Hopen. }
  unfold write_promise, run_transaction, exec_requests, exec_request. simpl.
  destruct (request_error eng _ _) as [e|] eqn:Hreq.
  { exists e. split; [done|]. intros ->. discriminate Hreq. }
  rewrite (store_add_taken _ _ _ _ Ht). by exists ConstraintError.
Qed.

Lemma addTransaction_fresh d t :
  transactions_store d !! Transaction.id t = None →
  db.addTransaction healthy t d =
  (Resolved tt,
   with_transactions d (<[Transaction.id t := t]> (transactions_store d))).
Proof.
  intros Ht. unfold db.addTransaction. rewrite bind_openDB. simpl.
  unfold write_promise, run_transaction, exec_requests, exec_request. simpl.
  by rewrite (store_add_fresh _ _ _ Ht).
Qed.
End RecordStore.

(** C6. Uniqueness on add.  In a store that already holds a transaction
    with the id of [t], [addTransaction t] is rejected whatever the engine
    does, with ConstraintError (the duplicate-key error) on an engine
    without faults, and the store is left as it was.  When no stored
    transaction has that id, the add succeeds; afterwards the store holds
    [t], still holds all it held, and the budgets are untouched. *)
Theorem addTransaction_unique (d : IDBDatabase) (t : Transaction.t) :
  well_formed d →
  (∀ t0, holds (transactions_store d) t0 →
         Transaction.id t0 = Transaction.id t →
         db.addTransaction healthy t d = (Rejected ConstraintError, d) ∧
         ∀ eng, ∃ e, db.addTransaction eng t d = (Rejected e, d)) ∧
  ((∀ t0, holds (transactions_store d) t0 →
          Transaction.id t0 ≠ Transaction.id t) →
   ∃ d', db.addTransaction healthy t d = (Resolved tt, d') ∧
         holds (transactions_store d') t ∧
         (∀ t0, holds (transactions_store d) t0 → holds (transactions_store d') t0) ∧
         budgets_store d' = budgets_store d ∧
         well_formed d').
Proof.
  intros [Hts Hbs]. split.
  - intros t0 Ht0 Hid.
    pose proof (keyed_lookup _ _ _ Hts Ht0) as Hlk. rewrite Hid in Hlk.
    split.
    + destruct (addTransaction_taken healthy d t t0 Hlk) as (e & -> & He).
      by rewrite He.
    + intros eng. destruct (addTransaction_taken eng d t t0 Hlk) as (e & He & _).
      by exists e.
  - intros Hfresh.
    assert (transactions_store d !! Transaction.id t = None) as Hnone.
    { destruct (transactions_store d !! Transaction.id t) as [t0|] eqn:Hlk; [|done].
      destruct (Hfresh t0); [by eexists | by apply Hts in Hlk]. }
    eexists. split; [by apply addTransaction_fresh|]. simpl.
    split; [|split; [|split]].
    + exists (Transaction.id t). apply lookup_insert_eq.
    + intros t0 [k Hk]. exists k. rewrite lookup_insert_ne; [done|].
      intros <-. by rewrite Hnone in Hk.
    + done.
    + split; [|done]. simpl. by apply (keyed_put Transaction.id).
Qed.

Lemma addTransaction_unique_witness :
  let t := Transaction.mk "k" "mercado" 1 DEBIT "2024-05-10" "09:00" 100 in
  let d := with_transactions empty_db {[ "k" := t ]} in
  db.addTransaction healthy t d = (Rejected ConstraintError, d) ∧
  ∃ d', db.addTransaction healthy t empty_db = (Resolved tt, d') ∧
        holds (transactions_store d') t.
Proof.
  intros t d. split.
  - assert (well_formed d) as Hwf.
    { split; [|apply keyed_empty]. intros k v. simpl.
      rewrite lookup_singleton_Some. by intros [<- <-]. }
    apply (proj1 (addTransaction_unique d t Hwf) t); [|done].
    exists "k". apply lookup_singleton_eq.
  - assert (well_formed empty_db) as Hwf by (split; apply keyed_empty).
    destruct (proj2 (addTransaction_unique empty_db t Hwf)) as (d' & H1 & H2 & _).
    + intros t0 [k Hk]. simpl in Hk. by rewrite lookup_empty in Hk.
    + by exists d'.
Defined.

(** C7. Budget default.  [getMonthlyBudget] resolves to 0 for a month
    without a stored record, on the empty store too, and to the limit of
    the record when there is one; the store is left as it was. *)
Theorem getMonthlyBudget_default (d : IDBDatabase) (month : string) :
  (budgets_store d !! month = None →
   db.getMonthlyBudget healthy month d = (Resolved 0%Q, d)) ∧
  (∀ b, budgets_store d !! month = Some b →
        db.getMonthlyBudget healthy month d = (Resolved (MonthlyBudget.limit b), d)) ∧
  db.getMonthlyBudget healthy "2099-01" empty_db = (Resolved 0%Q, empty_db).
Proof.
  unfold db.getMonthlyBudget. rewrite !bind_openDB. simpl.
  split; [|split].
  - by intros ->.
  - by intros b ->.
  - by rewrite lookup_empty.
Qed.

Lemma getMonthlyBudget_default_witness :
  let b := MonthlyBudget.mk "2024-05" 1500 in
  db.getMonthlyBudget healthy "2024-06" (with_budgets empty_db {[ "2024-05" := b ]}) =
    (Resolved 0%Q, with_budgets empty_db {[ "2024-05" := b ]}) ∧
  db.getMonthlyBudget healthy "2024-05" (with_budgets empty_db {[ "2024-05" := b ]}) =
    (Resolved 1500%Q, with_budgets empty_db {[ "2024-05" := b ]}).
Proof.
  intros b. split.
  - by apply (proj1 (getMonthlyBudget_default
                      (with_budgets empty_db {[ "2024-05" := b ]}) "2024-06")).
  - by apply (proj1 (proj2 (getMonthlyBudget_default
                      (with_budgets empty_db {[ "2024-05" := b ]}) "2024-05")) b).
Defined.

(** C10. Cross-kind frame.  Adding, updating and deleting a transaction
    leave the budgets object store as it was, and setting a budget leaves
    the transactions object store as it was, whatever the store holds,
    whatever the argument and whatever the engine does. *)
Theorem cross_kind_frame (eng : Engine) (d : IDBDatabase)
    (t : Transaction.t) (id : string) (b : MonthlyBudget.t) :
  budgets_store (db.addTransaction eng t d).2 = budgets_store d ∧
  budgets_store (db.updateTransaction eng t d).2 = budgets_store d ∧
  budgets_store (db.deleteTransaction eng id d).2 = budgets_store d ∧
  transactions_store (db.setMonthlyBudget eng b d).2 = transactions_store d.
Proof.
  unfold db.addTransaction, db.updateTransaction, db.deleteTransaction,
    db.setMonthlyBudget.
  rewrite !bind_openDB.
  destruct (open_error eng); [done|].
  repeat split;
    (apply write_promise_budgets_frame || apply write_promise_transactions_frame);
    by repeat constructor.
Qed.

(** ** Backup and restore *)

Lemma clearAllData_healthy d : db.clearAllData healthy d = (Resolved tt, empty_db).
Proof. done. Qed.

Lemma importDatabase_healthy d data ts bs :
  BackupData.transactions data = Some ts →
  BackupData.budgets data = Some bs →
  NoDup (Transaction.id <$> ts) →
  NoDup (MonthlyBudget.month <$> bs) →
  db.importDatabase healthy data d =
  (Resolved tt,
   {| transactions_store := records_map Transaction.id ts;
      budgets_store := records_map MonthlyBudget.month bs |}).
Proof.
  intros Hts Hbs Hnd1 Hnd2. unfold db.importDatabase.
  unfold bind at 1. rewrite clearAllData_healthy. rewrite bind_openDB. simpl.
  rewrite Hts, Hbs. unfold transaction_promise, run_transaction.
  rewrite exec_requests_app.
  rewrite exec_add_transactions; [|done..|by intros; apply lookup_empty].
  rewrite exec_add_budgets; [|done..|by intros; apply lookup_empty].
  simpl. unfold with_budgets, with_transactions. simpl.
  by rewrite !(right_id_L ∅ (∪)).
Qed.

(** [importDatabase] checks nothing itself: handed an object without the
    two fields it has emptied the store by the time the first [forEach]
    throws. *)
Lemma importDatabase_unvalidated d :
  db.importDatabase healthy BackupData.empty_object d = (Rejected TypeError, empty_db).
Proof. done. Qed.

(** The adds of a transaction succeed only for ids that are new to the
    store and all different, and fail with ConstraintError otherwise. *)
Lemma exec_add_transactions_inv ts d d' :
  exec_requests healthy (map AddTransaction ts) d = inr d' →
  NoDup (Transaction.id <$> ts) ∧
  ∀ t, t ∈ ts → transactions_store d !! Transaction.id t = None.
Proof.
  revert d. induction ts as [|t ts IH]; intros d; simpl.
  - intros _. split; [constructor|]. by intros t ?%elem_of_nil.
  - unfold exec_request. simpl. unfold store_add.
    destruct (transactions_store d !! Transaction.id t) eqn:Ht; [done|].
    intros [Hnd Hfresh]%IH. simpl in Hfresh.
    assert (∀ t', t' ∈ ts → Transaction.id t ≠ Transaction.id t') as Hne.
    { intros t' Ht' Heq. specialize (Hfresh t' Ht').
      by rewrite <-Heq, lookup_insert_eq in Hfresh. }
    split.
    + constructor; [|done]. intros (t' & Heq & Ht')%list_elem_of_fmap.
      by apply (Hne t').
    + intros t' [->|Ht']%elem_of_cons; [done|].
      specialize (Hfresh t' Ht'). rewrite lookup_insert_ne in Hfresh; auto.
Qed.

Lemma exec_add_transactions_error ts d e :
  exec_requests healthy (map AddTransaction ts) d = inl e → e = ConstraintError.
Proof.
  revert d. induction ts as [|t ts IH]; intros d; simpl; [done|].
  unfold exec_request. simpl. unfold store_add.
  destruct (transactions_store d !! Transaction.id t); [congruence | apply IH].
Qed.

(** Add semantics: a snapshot with an id twice is not merged; the second
    add fails, the import is rejected, its transaction is undone, and the
    store stays as [clearAllData] left it. *)
Lemma importDatabase_duplicate_id d data ts bs :
  BackupData.transactions data = Some ts →
  BackupData.budgets data = Some bs →
  ¬ NoDup (Transaction.id <$> ts) →
  db.importDatabase healthy data d = (Rejected Null, empty_db).
Proof.
  intros Hts Hbs Hdup. unfold db.importDatabase.
  unfold bind at 1. rewrite clearAllData_healthy. rewrite bind_openDB. simpl.
  rewrite Hts, Hbs. unfold transaction_promise, run_transaction.
  rewrite exec_requests_app.
  destruct (exec_requests healthy (map AddTransaction ts) empty_db) as [e|d'] eqn:He.
  - done.
  - by apply exec_add_transactions_inv in He as [? _].
Qed.

(** C2, as the spec has it, fails: [importDatabase] handed the empty
    object does not fail with the invalid-backup error and does not leave
    the store as it was; it is rejected with TypeError and the transaction
    the store held is gone. *)
Lemma importDatabase_validation_counterexample :
  let t := Transaction.mk "k" "mercado" 1 DEBIT "2024-05-10" "09:00" 100 in
  let d := with_transactions empty_db {[ "k" := t ]} in
  holds (transactions_store d) t ∧
  ∃ e d', db.importDatabase healthy BackupData.empty_object d = (Rejected e, d') ∧
          e ≠ InvalidBackupFile ∧
          d' ≠ d ∧
          ¬ holds (transactions_store d') t.
Proof.
  intros t d. split; [exists "k"; apply lookup_singleton_eq|].
  exists TypeError, empty_db. split; [reflexivity|]. split; [discriminate|].
  assert (¬ holds (transactions_store empty_db) t) as Hgone.
  { intros [k Hk]. simpl in Hk. by rewrite lookup_empty in Hk. }
  split; [|done]. intros Heq. apply Hgone. rewrite Heq.
  exists "k". apply lookup_singleton_eq.
Qed.

(** C2, as the code has it.  The check is made by the restore handler of
    App.tsx before it calls [importDatabase]: when the [transactions]
    field or the [budgets] field is absent, as in the empty object, the
    handler fails with the invalid-backup error and the store is left
    exactly as it was, whatever it holds and whatever the engine does.
    [importDatabase] itself checks nothing: on an engine without faults,
    handed such an object it is rejected with TypeError after the store
    was emptied, and when it is the [budgets] field alone that is absent,
    after the transactions of the object (no id twice) were written. *)
Theorem handleFileChange_invalid_backup
    (eng : Engine) (d : IDBDatabase) (data : BackupData.t) :
  BackupData.transactions data = None ∨ BackupData.budgets data = None →
  App.handleFileChange eng data d = (Rejected InvalidBackupFile, d) ∧
  (BackupData.transactions data = None →
   db.importDatabase healthy data d = (Rejected TypeError, empty_db)) ∧
  (∀ ts, BackupData.transactions data = Some ts →
         NoDup (Transaction.id <$> ts) →
         db.importDatabase healthy data d =
         (Rejected TypeError,
          {| transactions_store := records_map Transaction.id ts;
             budgets_store := ∅ |})).
Proof.
  intros Hmissing. split; [|split].
  - unfold App.handleFileChange.
    destruct Hmissing as [-> | ->]; simpl; [done|]. by rewrite orb_true_r.
  - intros Hts. unfold db.importDatabase. unfold bind at 1.
    rewrite clearAllData_healthy, bind_openDB. simpl. by rewrite Hts.
  - intros ts Hts Hnd.
    destruct Hmissing as [Hno | Hbs]; [congruence|].
    unfold db.importDatabase. unfold bind at 1.
    rewrite clearAllData_healthy, bind_openDB. simpl. rewrite Hts, Hbs.
    unfold run_transaction.
    rewrite exec_add_transactions; [|done..|by intros; apply lookup_empty].
    simpl. unfold with_transactions. simpl. by rewrite (right_id_L ∅ (∪)).
Qed.

Lemma handleFileChange_invalid_backup_witness :
  let t := Transaction.mk "k" "mercado" 1 DEBIT "2024-05-10" "09:00" 100 in
  let d := with_transactions empty_db {[ "k" := t ]} in
  App.handleFileChange healthy BackupData.empty_object d
    = (Rejected InvalidBackupFile, d) ∧
  db.importDatabase healthy BackupData.empty_object d
    = (Rejected TypeError, empty_db).
Proof.
  intros t d.
  destruct (handleFileChange_invalid_backup healthy d BackupData.empty_object)
    as (H1 & H2 & _).
  - left. reflexivity.
  - split; [exact H1|]. apply H2. reflexivity.
Defined.

(** C5. Import replaces.  On an engine without faults, importing a
    snapshot that has both fields and no key twice in either of them
    succeeds; as [clearAllData] empties both object stores first, the
    store afterwards holds exactly the records of the snapshot, each
    under its key, and nothing of what it held before. *)
Theorem importDatabase_replaces (d : IDBDatabase) (data : BackupData.t)
    (ts : list Transaction.t) (bs : list MonthlyBudget.t) :
  BackupData.transactions data = Some ts →
  BackupData.budgets data = Some bs →
  NoDup (Transaction.id <$> ts) →
  NoDup (MonthlyBudget.month <$> bs) →
  db.clearAllData healthy d = (Resolved tt, empty_db) ∧
  ∃ d', db.importDatabase healthy data d = (Resolved tt, d') ∧
        (∀ t, holds (transactions_store d') t ↔ t ∈ ts) ∧
        (∀ b, holds (budgets_store d') b ↔ b ∈ bs) ∧
        well_formed d'.
Proof.
  intros Hts Hbs Hnd1 Hnd2. split; [done|].
  eexists. split; [by eapply importDatabase_healthy|]. simpl.
  split; [|split].
  - intros t. by apply holds_records_map.
  - intros b. by apply holds_records_map.
  - split; simpl; by apply keyed_records_map.
Qed.

Lemma importDatabase_replaces_witness :
  let old := Transaction.mk "old" "aluguel" 900 DEBIT "2024-04-05" "10:00" 50 in
  let t1 := Transaction.mk "a" "mercado" 1 DEBIT "2024-05-10" "09:00" 100 in
  let t2 := Transaction.mk "b" "padaria" 2 CREDIT "2024-05-11" "08:00" 200 in
  let b1 := MonthlyBudget.mk "2024-05" 1500 in
  let data := BackupData.mk (Some 1) (Some 0) (Some [t1; t2]) (Some [b1]) in
  ∃ d', db.importDatabase healthy data (with_transactions empty_db {[ "old" := old ]})
          = (Resolved tt, d') ∧
        (∀ t, holds (transactions_store d') t ↔ t ∈ [t1; t2]).
Proof.
  intros old t1 t2 b1 data.
  destruct (importDatabase_replaces (with_transactions empty_db {[ "old" := old ]})
              data [t1; t2] [b1]) as (_ & d' & H1 & H2 & _).
  - reflexivity.
  - reflexivity.
  - simpl. repeat constructor; rewrite ?elem_of_cons, ?elem_of_nil; intuition discriminate.
  - simpl. repeat constructor; rewrite ?elem_of_cons, ?elem_of_nil; intuition discriminate.
  - exists d'. split; assumption.
Defined.

(** C1. Round trip.  For a store in which every record sits under its own
    key (distinct ids, distinct months), on an engine without faults,
    [exportDatabase] resolves to a snapshot and leaves the store as it is,
    and [importDatabase] of that snapshot, run on that store or on any
    other, succeeds and leaves exactly the store that was exported: the
    same transactions and the same budgets under the same keys. *)
Theorem export_import_round_trip (d : IDBDatabase) (now : Z) :
  well_formed d →
  ∃ snapshot,
    db.exportDatabase healthy now d = (Resolved snapshot, d) ∧
    ∀ d0, db.importDatabase healthy snapshot d0 = (Resolved tt, d).
Proof.
  intros [Hts Hbs]. eexists. split; [reflexivity|]. intros d0.
  erewrite importDatabase_healthy; [| reflexivity | reflexivity | |];
    simpl; [| by apply getAll_keys_NoDup..].
  rewrite !records_map_getAll by done. by destruct d.
Qed.

Lemma export_import_round_trip_witness :
  let t1 := Transaction.mk "a" "mercado" 1 DEBIT "2024-05-10" "09:00" 100 in
  let t2 := Transaction.mk "b" "padaria" 2 CREDIT "2024-05-11" "08:00" 200 in
  let b1 := MonthlyBudget.mk "2024-05" 1500 in
  let d := {| transactions_store := {[ "a" := t1; "b" := t2 ]};
              budgets_store := {[ "2024-05" := b1 ]} |} in
  ∃ snapshot,
    db.exportDatabase healthy 1714000000000 d = (Resolved snapshot, d) ∧
    db.importDatabase healthy snapshot d = (Resolved tt, d).
Proof.
  intros t1 t2 b1 d.
  destruct (export_import_round_trip d 1714000000000) as (snapshot & H1 & H2).
  - split; intros k v; simpl.
    + rewrite lookup_insert_Some, lookup_singleton_Some.
      intros [[<- <-] | [_ [<- <-]]]; reflexivity.
    + rewrite lookup_singleton_Some. intros [<- <-]. reflexivity.
  - exists snapshot. split; [exact H1 | exact (H2 d)].
Defined.

(** C9. Error propagation, where the code departs from it.  When the
    engine fails the [getAll] request on either object store, the promise
    of [exportDatabase] is neither rejected nor resolved: it never
    settles, so the caller is told nothing. *)
Theorem exportDatabase_getAll_error_unsettled
    (s : StoreName) (now : Z) (d : IDBDatabase) :
  db.exportDatabase (getAll_fails s) now d = (Pending, d).
Proof. by destruct s. Qed.

(** ** Month query *)

Section Sort.
Context {A : Type} (cmp : A → A → Z).
Implicit Types (x : A) (l : list A).

Lemma sort_insert_Permutation x l : sort_insert cmp x l ≡ₚ x :: l.
Proof.
  induction l as [|y l IH]; simpl; [done|].
  destruct (cmp x y <=? 0); [done|]. rewrite IH. apply Permutation_swap.
Qed.

Lemma sort_Permutation l : sort cmp l ≡ₚ l.
Proof.
  induction l as [|x l IH]; simpl; [done|].
  by rewrite sort_insert_Permutation, IH.
Qed.

(** On a set [P] of elements on which the comparator is transitive and
    never puts two elements each strictly after the other, sorting
    leaves every element before all the later ones. *)
Variable P : A → Prop.
Hypothesis cmp_trans :
  ∀ x y z, P x → P y → P z → cmp x y ≤ 0 → cmp y z ≤ 0 → cmp x z ≤ 0.
Hypothesis cmp_total : ∀ x y, P x → P y → 0 < cmp x y → cmp y x ≤ 0.


End Sort.

Lemma leb_le (a b : string) : String.leb a b = true ↔ String.le a b.
Proof. unfold String.le. by rewrite Is_true_true. Qed.

Lemma in_range_le lower upper key :
  in_range lower upper key = true ↔ String.le lower key ∧ String.le key upper.
Proof. unfold in_range. by rewrite andb_true_iff, !leb_le. Qed.

Lemma date_index_getAll_Permutation lower upper m :
  date_index_getAll lower upper m ≡ₚ
  filter (λ t, in_range lower upper (Transaction.date t) = true) (map_to_list m).*2.
Proof. apply merge_sort_Permutation. Qed.

Lemma elem_of_date_index_getAll lower upper m t :
  t ∈ date_index_getAll lower upper m ↔
  holds m t ∧ in_range lower upper (Transaction.date t) = true.
Proof.
  rewrite date_index_getAll_Permutation, list_elem_of_filter, list_elem_of_fmap.
  unfold holds. split.
  - intros [Hr [[k w] [-> Hin]]]. split; [|done].
    exists k. by apply elem_of_map_to_list.
  - intros [[k Hk] Hr]. split; [done|].
    exists (k, t). split; [done | by apply elem_of_map_to_list].
Qed.

Lemma keyed_values_NoDup {V} (keyPath : V → string) (m : gmap string V) :
  keyed keyPath m → NoDup (map_to_list m).*2.
Proof.
  intros Hm. apply NoDup_fmap_2_strong; [|apply NoDup_map_to_list].
  intros [k1 v1] [k2 v2] H1%elem_of_map_to_list H2%elem_of_map_to_list.
  simpl. intros <-. by rewrite <-(Hm _ _ H1), <-(Hm _ _ H2).
Qed.

Lemma getTransactionsByMonth_healthy month d :
  db.getTransactionsByMonth healthy month d =
  (Resolved (sort db.compare
     (date_index_getAll (month ++ "-01") (month ++ "-31") (transactions_store d))), d).
Proof. done. Qed.

Lemma returns_iff d month t :
  returns d month t ↔
  holds (transactions_store d) t ∧
  String.le (month ++ "-01") (Transaction.date t) ∧
  String.le (Transaction.date t) (month ++ "-31").
Proof.
  unfold returns. rewrite getTransactionsByMonth_healthy.
  rewrite <-in_range_le, <-elem_of_date_index_getAll.
  rewrite <-(sort_Permutation db.compare (date_index_getAll _ _ _)).
  split; [by intros (out & [= <-] & ?) | eauto].
Qed.

Lemma omits_iff d month t : omits d month t ↔ ¬ returns d month t.
Proof.
  unfold omits, returns. rewrite getTransactionsByMonth_healthy. split.
  - by intros (out & [= <-] & Hout) (out' & [= <-] & Hin).
  - intros Hn. eexists. split; [done|]. intros Hin. apply Hn. eauto.
Qed.

(** C4. Month boundary.  On an engine without faults the month query
    resolves to a list that leaves the store as it is, lists no record
    twice, and has in it exactly the stored transactions whose date lies,
    as a string, between month-01 and month-31, both included.  So a
    stored transaction dated 2024-02-29 is returned for 2024-02 and not
    for 2024-03, and one dated 2024-04-30 is returned for 2024-04. *)
Theorem getTransactionsByMonth_range (d : IDBDatabase) :
  well_formed d →
  (∀ month, ∃ out,
     db.getTransactionsByMonth healthy month d = (Resolved out, d) ∧
     NoDup out ∧
     ∀ t, t ∈ out ↔
          holds (transactions_store d) t ∧
          String.le (month ++ "-01") (Transaction.date t) ∧
          String.le (Transaction.date t) (month ++ "-31")) ∧
  (∀ t, holds (transactions_store d) t → Transaction.date t = "2024-02-29" →
        returns d "2024-02" t ∧ omits d "2024-03" t) ∧
  (∀ t, holds (transactions_store d) t → Transaction.date t = "2024-04-30" →
        returns d "2024-04" t).
Proof.
  intros [Hts _]. split; [|split].
  - intros month. eexists. split; [apply getTransactionsByMonth_healthy|]. split.
    + rewrite sort_Permutation, date_index_getAll_Permutation.
      apply NoDup_filter. by eapply keyed_values_NoDup.
    + intros t. rewrite sort_Permutation, elem_of_date_index_getAll.
      by rewrite in_range_le.
  - intros t Ht Hdate. rewrite omits_iff, !returns_iff, Hdate. split.
    + by repeat split.
    + by intros (_ & H1 & _).
  - intros t Ht Hdate. rewrite returns_iff, Hdate. by repeat split.
Qed.

Lemma getTransactionsByMonth_range_witness :
  let t := Transaction.mk "leap" "mercado" 1 DEBIT "2024-02-29" "09:00" 100 in
  let d := with_transactions empty_db {[ "leap" := t ]} in
  returns d "2024-02" t ∧ omits d "2024-03" t.
Proof.
  intros t d.
  assert (well_formed d) as Hwf.
  { split; [|apply keyed_empty]. intros k v. simpl.
    rewrite lookup_singleton_Some. intros [<- <-]. reflexivity. }
  apply (proj1 (proj2 (getTransactionsByMonth_range d Hwf)) t).
  - exists "leap". apply lookup_singleton_eq.
  - reflexivity.
Defined.

(** ** Order of the month query *)

Section StringOrder.
Implicit Types a b c : string.

Lemma str_compare_refl a : String.compare a a = Eq.
Proof.
  pose proof (String.compare_antisym a a) as H.
  by destruct (String.compare a a).
Qed.

Lemma str_lt_le a b : str_lt a b ↔ String.le a b ∧ a ≠ b.
Proof.
  unfold str_lt, String.le, String.leb. split.
  - intros H. rewrite H. split; [done|]. intros ->.
    by rewrite str_compare_refl in H.
  - intros [Hle Hne]. destruct (String.compare a b) eqn:Hc; [|done..].
    by apply String.compare_eq_iff in Hc.
Qed.

Lemma str_lt_irrefl a : ¬ str_lt a a.
Proof. unfold str_lt. by rewrite str_compare_refl. Qed.

Lemma str_lt_trans a b c : str_lt a b → str_lt b c → str_lt a c.
Proof.
  rewrite !str_lt_le. intros [Hab Hne] [Hbc _]. split; [by etrans|].
  intros ->. apply Hne. by apply (anti_symm String.le).
Qed.

Lemma str_lt_asym a b : str_lt a b → ¬ str_lt b a.
Proof. intros H1 H2. by apply (str_lt_irrefl a), (str_lt_trans a b a). Qed.

Lemma truthy_nonempty a : truthy a = true ↔ a ≠ "".
Proof. by destruct a. Qed.

Lemma localeCompare_antisym a b : localeCompare b a = - localeCompare a b.
Proof.
  unfold localeCompare. rewrite (String.compare_antisym b a).
  by destruct (String.compare a b).
Qed.

End StringOrder.

Section Comparator.
Implicit Types a b c : Transaction.t.

Lemma compare_antisym a b : db.compare b a = - db.compare a b.
Proof.
  unfold db.compare.
  rewrite (String.eqb_sym (Transaction.date b)), (String.eqb_sym (Transaction.time b)).
  rewrite (andb_comm (truthy (Transaction.time b))).
  repeat case_match; (apply localeCompare_antisym || lia).
Qed.




End Comparator.

Section PerDate.
Implicit Types a b c : Transaction.t.



End PerDate.








(** ** Engine errors *)

(** A database that cannot be opened: every operation is rejected with
    the error of [indexedDB.open], the export too. *)
Lemma open_error_surfaces eng e d t id month b now data :
  open_error eng = Some e →
  db.addTransaction eng t d = (Rejected e, d) ∧
  db.updateTransaction eng t d = (Rejected e, d) ∧
  db.deleteTransaction eng id d = (Rejected e, d) ∧
  db.getTransactionsByMonth eng month d = (Rejected e, d) ∧
  db.setMonthlyBudget eng b d = (Rejected e, d) ∧
  db.getMonthlyBudget eng month d = (Rejected e, d) ∧
  db.clearAllData eng d = (Rejected e, d) ∧
  db.exportDatabase eng now d = (Rejected e, d) ∧
  db.importDatabase eng data d = (Rejected e, d).
Proof.
  intros He.
  assert (db.clearAllData eng d = (Rejected e, d)) as Hclear.
  { unfold db.clearAllData. by rewrite bind_openDB, He. }
  unfold db.addTransaction, db.updateTransaction, db.deleteTransaction,
    db.getTransactionsByMonth, db.setMonthlyBudget, db.getMonthlyBudget,
    db.exportDatabase.
  rewrite !bind_openDB, He. repeat split; try done.
  unfold db.importDatabase, bind at 1. by rewrite Hclear.
Qed.

(** A failed request: the single-request operations hand the error of the
    request on and leave the store as it was; [clearAllData] is rejected
    too, with the null that its transaction has for an error at that
    moment. *)
Lemma request_error_surfaces eng e d t id month b :
  open_error eng = None →
  (request_error eng STORE_TRANSACTIONS KAdd = Some e →
   db.addTransaction eng t d = (Rejected e, d)) ∧
  (request_error eng STORE_TRANSACTIONS KPut = Some e →
   db.updateTransaction eng t d = (Rejected e, d)) ∧
  (request_error eng STORE_TRANSACTIONS KDelete = Some e →
   db.deleteTransaction eng id d = (Rejected e, d)) ∧
  (request_error eng STORE_TRANSACTIONS KIndexGetAll = Some e →
   db.getTransactionsByMonth eng month d = (Rejected e, d)) ∧
  (request_error eng STORE_BUDGETS KPut = Some e →
   db.setMonthlyBudget eng b d = (Rejected e, d)) ∧
  (request_error eng STORE_BUDGETS KGet = Some e →
   db.getMonthlyBudget eng month d = (Rejected e, d)) ∧
  (request_error eng STORE_TRANSACTIONS KClear = Some e ∨
   request_error eng STORE_BUDGETS KClear = Some e →
   db.clearAllData eng d = (Rejected Null, d)).
Proof.
  intros Hopen.
  unfold db.addTransaction, db.updateTransaction, db.deleteTransaction,
    db.getTransactionsByMonth, db.setMonthlyBudget, db.getMonthlyBudget,
    db.clearAllData.
  rewrite !bind_openDB, Hopen.
  unfold write_promise, transaction_promise, run_transaction, exec_requests,
    exec_request. simpl.
  do 6 (split; [by intros ->|]).
  intros [-> | ->]; [done|].
  by destruct (request_error eng STORE_TRANSACTIONS KClear).
Qed.

(** The export with the database open: a failed [getAll] on either object
    store leaves the promise unsettled. *)
Lemma exportDatabase_getAll_error eng now d :
  open_error eng = None →
  is_Some (request_error eng STORE_TRANSACTIONS KGetAll) ∨
  is_Some (request_error eng STORE_BUDGETS KGetAll) →
  db.exportDatabase eng now d = (Pending, d).
Proof.
  intros Hopen Hreq. unfold db.exportDatabase. rewrite bind_openDB, Hopen.
  unfold bind, db.getStoreData. simpl.
  destruct (request_error eng STORE_TRANSACTIONS KGetAll),
    (request_error eng STORE_BUDGETS KGetAll); simpl; try done.
  by destruct Hreq as [[e He]|[e He]].
Qed.

(** ** Budget limit *)

Lemma setMonthlyBudget_healthy d b :
  db.setMonthlyBudget healthy b d =
  (Resolved tt,
   with_budgets d (<[MonthlyBudget.month b := b]> (budgets_store d))).
Proof. done. Qed.

(** C8, as the spec has it, fails: [setMonthlyBudget], and
    [handleUpdateLimit] which calls it, store a limit below 0. *)
Lemma setMonthlyBudget_negative_counterexample :
  let b := MonthlyBudget.mk "2024-05" (-100) in
  db.setMonthlyBudget healthy b empty_db =
    (Resolved tt, with_budgets empty_db {[ "2024-05" := b ]}) ∧
  App.handleUpdateLimit healthy "2024-05" (-100) empty_db =
    (Resolved tt, with_budgets empty_db {[ "2024-05" := b ]}) ∧
  db.getMonthlyBudget healthy "2024-05" (with_budgets empty_db {[ "2024-05" := b ]}) =
    (Resolved (-100)%Q, with_budgets empty_db {[ "2024-05" := b ]}).
Proof. done. Qed.

(** C8, as the code has it.  [setMonthlyBudget] checks nothing: on an
    engine without faults it inserts or overwrites the record of the month
    whatever the limit.  The guard is in [handleSave] of the summary: when
    the text parses to NaN or to a value below 0 it does not call
    [onUpdateLimit], so no error is raised and the store is left as it
    was; when the text is not empty and parses to a value of 0 or more,
    the record of the month is inserted or overwritten with that limit. *)
Theorem budget_limit_guard (d : IDBDatabase) (month : string) :
  (∀ limit,
     db.setMonthlyBudget healthy (MonthlyBudget.mk month limit) d =
     (Resolved tt,
      with_budgets d (<[month := MonthlyBudget.mk month limit]> (budgets_store d)))) ∧
  (∀ parseFloat eng editValue,
     (parseFloat (Summary.replace_comma (Summary.remove_dots editValue)) = NaN ∨
      ∃ q, parseFloat (Summary.replace_comma (Summary.remove_dots editValue)) = Num q ∧
           (q < 0)%Q) →
     Summary.handleSave parseFloat (App.handleUpdateLimit eng month) editValue d =
     (None, d)) ∧
  (∀ parseFloat editValue q,
     editValue ≠ "" →
     parseFloat (Summary.replace_comma (Summary.remove_dots editValue)) = Num q →
     (0 <= q)%Q →
     Summary.handleSave parseFloat (App.handleUpdateLimit healthy month) editValue d =
     (Some (Resolved tt),
      with_budgets d (<[month := MonthlyBudget.mk month q]> (budgets_store d)))).
Proof.
  split; [|split].
  - intros limit. apply setMonthlyBudget_healthy.
  - intros parseFloat eng editValue Hval. unfold Summary.handleSave.
    destruct (truthy editValue); simpl; [|done].
    destruct Hval as [-> | (q & -> & Hq)]; [done|]. simpl.
    destruct (Qle_bool 0 q) eqn:Hle; [|done].
    apply Qle_bool_iff in Hle. by apply Qlt_not_le in Hq.
  - intros parseFloat editValue q Hne Hval Hq. unfold Summary.handleSave.
    apply truthy_nonempty in Hne. rewrite Hne. cbn [negb]. rewrite Hval.
    cbn [isNaN ge0 negb andb]. apply Qle_bool_iff in Hq. by rewrite Hq.
Qed.

Lemma budget_limit_guard_witness :
  let b := MonthlyBudget.mk "2024-05" 800 in
  let d := with_budgets empty_db {[ "2024-05" := b ]} in
  Summary.handleSave parseFloat_sample (App.handleUpdateLimit healthy "2024-05") "-5,00" d =
    (None, d) ∧
  Summary.handleSave parseFloat_sample (App.handleUpdateLimit healthy "2024-05") "1.250,50" d =
    (Some (Resolved tt),
     with_budgets d (<["2024-05" := MonthlyBudget.mk "2024-05" 1250.5]> (budgets_store d))).
Proof.
  intros b d. split.
  - apply (proj1 (proj2 (budget_limit_guard d "2024-05")) parseFloat_sample healthy "-5,00").
    right. exists (-5)%Q. split; [reflexivity|]. reflexivity.
  - apply (proj2 (proj2 (budget_limit_guard d "2024-05")) parseFloat_sample "1.250,50" 1250.5%Q).
    + discriminate.
    + reflexivity.
    + discriminate.
Defined.

(** ** Update, delete and clear *)

Lemma with_transactions_same d : with_transactions d (transactions_store d) = d.
Proof. by destruct d. Qed.

Lemma with_budgets_same d : with_budgets d (budgets_store d) = d.
Proof. by destruct d. Qed.

Lemma well_formed_empty : well_formed empty_db.
Proof. split; apply keyed_empty. Qed.

Lemma lookup_fresh d t :
  well_formed d →
  (∀ t0, holds (transactions_store d) t0 → Transaction.id t0 ≠ Transaction.id t) →
  transactions_store d !! Transaction.id t = None.
Proof.
  intros [Hts _] Hfresh.
  destruct (transactions_store d !! Transaction.id t) as [t0|] eqn:Hlk; [|done].
  destruct (Hfresh t0); [by eexists | by apply Hts in Hlk].
Qed.

Lemma holds_delete d id :
  keyed Transaction.id (transactions_store d) →
  ∀ t, holds (delete id (transactions_store d)) t ↔
       holds (transactions_store d) t ∧ Transaction.id t ≠ id.
Proof.
  intros Hts t. unfold holds. split.
  - intros [k [Hne Hk]%lookup_delete_Some]. split; [by exists k|].
    by rewrite (Hts _ _ Hk).
  - intros [[k Hk] Hne]. exists k. apply lookup_delete_Some.
    split; [|done]. by rewrite <-(Hts _ _ Hk).
Qed.

Lemma deleteTransaction_healthy d id :
  db.deleteTransaction healthy id d =
  (Resolved tt, with_transactions d (delete id (transactions_store d))).
Proof. done. Qed.

(** Delete.  On an engine without faults [deleteTransaction] succeeds
    whether or not the id is stored; afterwards the store holds exactly
    the transactions it held under another id, the budgets are as they
    were, and when no stored transaction had the id the store is the one
    it was. *)
Theorem deleteTransaction_removes (d : IDBDatabase) (id : string) :
  well_formed d →
  ∃ d', db.deleteTransaction healthy id d = (Resolved tt, d') ∧
        (∀ t, holds (transactions_store d') t ↔
              holds (transactions_store d) t ∧ Transaction.id t ≠ id) ∧
        budgets_store d' = budgets_store d ∧
        well_formed d' ∧
        ((∀ t, holds (transactions_store d) t → Transaction.id t ≠ id) → d' = d).
Proof.
  intros [Hts Hbs]. eexists. split; [apply deleteTransaction_healthy|]. simpl.
  split; [|split; [done|split]].
  - by apply holds_delete.
  - split; [|done]. simpl. by apply keyed_delete.
  - intros Hfresh. rewrite delete_id; [apply with_transactions_same|].
    destruct (transactions_store d !! id) as [t|] eqn:Hlk; [|done].
    destruct (Hfresh t); [by eexists | by apply Hts in Hlk].
Qed.

Lemma deleteTransaction_removes_witness :
  let t := Transaction.mk "k" "mercado" 1 DEBIT "2024-05-10" "09:00" 100 in
  let d := with_transactions empty_db {[ "k" := t ]} in
  (∃ d', db.deleteTransaction healthy "k" d = (Resolved tt, d') ∧
         ¬ holds (transactions_store d') t) ∧
  db.deleteTransaction healthy "other" d = (Resolved tt, d).
Proof.
  intros t d.
  assert (well_formed d) as Hwf.
  { split; [|apply keyed_empty]. intros k v. simpl.
    rewrite lookup_singleton_Some. by intros [<- <-]. }
  assert (∀ v, holds (transactions_store d) v → v = t) as Hone.
  { intros v [k Hk]. simpl in Hk. apply lookup_singleton_Some in Hk.
    destruct Hk as [_ Hk]. symmetry. exact Hk. }
  split.
  - destruct (deleteTransaction_removes d "k" Hwf) as (d' & H1 & H2 & _).
    exists d'. split; [exact H1|]. intros Ht. apply H2 in Ht. by destruct Ht.
  - destruct (deleteTransaction_removes d "other" Hwf) as (d' & H1 & _ & _ & _ & H5).
    rewrite H1. f_equal. apply H5. intros v Hv. by rewrite (Hone v Hv).
Defined.

(** Update.  On an engine without faults [updateTransaction] always
    succeeds: the store then holds the transaction given and, of what it
    held, exactly the transactions with another id.  A stored id keeps the
    number of records, a new id adds one. *)
Theorem updateTransaction_upserts (d : IDBDatabase) (t : Transaction.t) :
  well_formed d →
  ∃ d', db.updateTransaction healthy t d = (Resolved tt, d') ∧
        (∀ t0, holds (transactions_store d') t0 ↔
               t0 = t ∨ (holds (transactions_store d) t0 ∧
                         Transaction.id t0 ≠ Transaction.id t)) ∧
        ((∃ t0, holds (transactions_store d) t0 ∧
                Transaction.id t0 = Transaction.id t) →
         size (transactions_store d') = size (transactions_store d)) ∧
        ((∀ t0, holds (transactions_store d) t0 →
                Transaction.id t0 ≠ Transaction.id t) →
         size (transactions_store d') = S (size (transactions_store d))) ∧
        budgets_store d' = budgets_store d ∧
        well_formed d'.
Proof.
  intros Hwf. pose proof Hwf as [Hts Hbs].
  eexists. split; [reflexivity|]. simpl. unfold store_put.
  split; [|split; [|split; [|split; [done|]]]].
  - intros t0. unfold holds. split.
    + intros [k [[_ <-]|[Hne Hk]]%lookup_insert_Some]; [by left|].
      right. split; [by exists k|]. by rewrite (Hts _ _ Hk).
    + intros [->|[[k Hk] Hne]].
      * exists (Transaction.id t). apply lookup_insert_eq.
      * exists k. rewrite lookup_insert_ne; [done|]. by rewrite <-(Hts _ _ Hk).
  - intros (t0 & Ht0 & Hid). apply map_size_insert_Some.
    exists t0. rewrite <-Hid. by apply keyed_lookup.
  - intros Hfresh. apply map_size_insert_None. by apply lookup_fresh.
  - split; [|done]. simpl. by apply (keyed_put Transaction.id).
Qed.

Lemma updateTransaction_upserts_witness :
  let t := Transaction.mk "k" "mercado" 1 DEBIT "2024-05-10" "09:00" 100 in
  let t' := Transaction.mk "k" "feira" 2 CREDIT "2024-05-12" "11:00" 100 in
  let d := with_transactions empty_db {[ "k" := t ]} in
  ∃ d', db.updateTransaction healthy t' d = (Resolved tt, d') ∧
        holds (transactions_store d') t' ∧
        ¬ holds (transactions_store d') t ∧
        size (transactions_store d') = size (transactions_store d).
Proof.
  intros t t' d.
  assert (well_formed d) as Hwf.
  { split; [|apply keyed_empty]. intros k v. simpl.
    rewrite lookup_singleton_Some. by intros [<- <-]. }
  destruct (updateTransaction_upserts d t' Hwf) as (d' & H1 & H2 & H3 & _).
  exists d'. split; [exact H1|]. split; [|split].
  - apply H2. by left.
  - intros Ht. apply H2 in Ht as [Ht|[_ Ht]]; [discriminate Ht | by apply Ht].
  - apply H3. exists t. split; [|reflexivity].
    exists "k". apply lookup_singleton_eq.
Defined.

(** Add, then delete.  Adding a transaction under an id that is not
    stored and deleting that id again gives back the store as it was. *)
Theorem add_then_delete (d : IDBDatabase) (t : Transaction.t) :
  well_formed d →
  (∀ t0, holds (transactions_store d) t0 → Transaction.id t0 ≠ Transaction.id t) →
  bind (db.addTransaction healthy t)
       (λ _, db.deleteTransaction healthy (Transaction.id t)) d = (Resolved tt, d).
Proof.
  intros Hwf Hfresh. pose proof (lookup_fresh d t Hwf Hfresh) as Hnone.
  unfold bind. rewrite (addTransaction_fresh d t Hnone).
  unfold db.deleteTransaction. rewrite bind_openDB. simpl.
  unfold write_promise, run_transaction, exec_requests, exec_request. simpl.
  rewrite delete_insert_eq, delete_id by done.
  by destruct d.
Qed.

Lemma add_then_delete_witness :
  let t := Transaction.mk "k" "mercado" 1 DEBIT "2024-05-10" "09:00" 100 in
  let b := MonthlyBudget.mk "2024-05" 1500 in
  let d := with_budgets empty_db {[ "2024-05" := b ]} in
  bind (db.addTransaction healthy t) (λ _, db.deleteTransaction healthy "k") d
    = (Resolved tt, d).
Proof.
  intros t b d. apply (add_then_delete d t).
  - split; [apply keyed_empty|]. intros k v. simpl.
    rewrite lookup_singleton_Some. by intros [<- <-].
  - intros t0 [k Hk]. simpl in Hk. by rewrite lookup_empty in Hk.
Defined.

(** Clear.  On an engine without faults [clearAllData] succeeds on every
    store; after it the month query finds nothing for any month, the
    budget of every month is 0 and the export has two empty lists. *)
Theorem clearAllData_empties (d : IDBDatabase) (month : string) (now : Z) :
  ∃ d', db.clearAllData healthy d = (Resolved tt, d') ∧
        db.getTransactionsByMonth healthy month d' = (Resolved [], d') ∧
        db.getMonthlyBudget healthy month d' = (Resolved 0%Q, d') ∧
        db.exportDatabase healthy now d' =
          (Resolved (BackupData.mk (Some 1) (Some now) (Some []) (Some [])), d').
Proof.
  exists empty_db. split; [done|]. split; [|split].
  - rewrite getTransactionsByMonth_healthy. unfold date_index_getAll. simpl.
    by rewrite map_to_list_empty.
  - unfold db.getMonthlyBudget. rewrite bind_openDB. simpl.
    by rewrite lookup_empty.
  - unfold db.exportDatabase. rewrite bind_openDB. simpl.
    unfold bind, db.getStoreData, store_getAll. simpl.
    by rewrite !map_to_list_empty.
Qed.

(** Budgets.  After [setMonthlyBudget] on an engine without faults,
    [getMonthlyBudget] of that month resolves to the limit just set,
    whatever was stored for it, and for every other month to what it
    resolved to before. *)
Theorem budget_set_then_get (d : IDBDatabase) (b : MonthlyBudget.t) :
  ∃ d', db.setMonthlyBudget healthy b d = (Resolved tt, d') ∧
        db.getMonthlyBudget healthy (MonthlyBudget.month b) d' =
          (Resolved (MonthlyBudget.limit b), d') ∧
        ∀ month, month ≠ MonthlyBudget.month b →
          (db.getMonthlyBudget healthy month d').1 =
          (db.getMonthlyBudget healthy month d).1.
Proof.
  eexists. split; [apply setMonthlyBudget_healthy|].
  unfold db.getMonthlyBudget. split.
  - rewrite bind_openDB. simpl. by rewrite lookup_insert_eq.
  - intros month Hne. rewrite !bind_openDB. simpl.
    by rewrite lookup_insert_ne.
Qed.

Lemma budget_set_then_get_witness :
  let b := MonthlyBudget.mk "2024-05" 1500 in
  let b' := MonthlyBudget.mk "2024-06" 900 in
  let d := with_budgets empty_db {[ "2024-05" := b ]} in
  ∃ d', db.setMonthlyBudget healthy b' d = (Resolved tt, d') ∧
        (db.getMonthlyBudget healthy "2024-05" d').1 = Resolved 1500%Q.
Proof.
  intros b b' d.
  destruct (budget_set_then_get d b') as (d' & H1 & _ & H3).
  exists d'. split; [exact H1|]. rewrite (H3 "2024-05"); [reflexivity | discriminate].
Defined.

(** Reads.  The month query, the budget query and the export leave the
    store as it is, whatever the engine does. *)
Theorem reads_leave_store (eng : Engine) (d : IDBDatabase) (month : string) (now : Z) :
  (db.getTransactionsByMonth eng month d).2 = d ∧
  (db.getMonthlyBudget eng month d).2 = d ∧
  (db.exportDatabase eng now d).2 = d.
Proof.
  unfold db.getTransactionsByMonth, db.getMonthlyBudget, db.exportDatabase.
  rewrite !bind_openDB. destruct (open_error eng); [done|].
  split; [|split].
  - by destruct (request_error eng STORE_TRANSACTIONS KIndexGetAll).
  - by destruct (request_error eng STORE_BUDGETS KGet).
  - unfold bind, db.getStoreData. simpl.
    by destruct (request_error eng STORE_TRANSACTIONS KGetAll),
      (request_error eng STORE_BUDGETS KGetAll).
Qed.

(** ** What every operation keeps *)

Lemma keyed_add {V} (keyPath : V → string) v (m m' : gmap string V) :
  keyed keyPath m → store_add keyPath v m = inr m' → keyed keyPath m'.
Proof.
  unfold store_add. intros Hm. destruct (m !! keyPath v); [done|].
  intros [= <-]. by apply (keyed_put keyPath).
Qed.

Lemma apply_request_well_formed r d d' :
  well_formed d → apply_request r d = inr d' → well_formed d'.
Proof.
  intros [Hts Hbs]. destruct r; simpl.
  - destruct (store_add _ _ _) as [|m] eqn:Hadd; [done|]. intros [= <-].
    split; [|done]. simpl. by eapply keyed_add.
  - intros [= <-]. split; [|done]. simpl. by apply (keyed_put Transaction.id).
  - intros [= <-]. split; [|done]. simpl. by apply keyed_delete.
  - intros [= <-]. split; [|done]. apply keyed_empty.
  - destruct (store_add _ _ _) as [|m] eqn:Hadd; [done|]. intros [= <-].
    split; [done|]. simpl. by eapply keyed_add.
  - intros [= <-]. split; [done|]. simpl. by apply (keyed_put MonthlyBudget.month).
  - intros [= <-]. split; [done|]. apply keyed_empty.
Qed.

Lemma exec_requests_well_formed eng rs d d' :
  well_formed d → exec_requests eng rs d = inr d' → well_formed d'.
Proof.
  revert d. induction rs as [|r rs IH]; intros d Hd; simpl.
  - by intros [= <-].
  - destruct (exec_request eng r d) as [|d1] eqn:H1; [done|]. apply IH.
    unfold exec_request in H1. destruct (request_error _ _ _); [done|].
    by eapply apply_request_well_formed.
Qed.

Lemma run_transaction_well_formed eng rs d :
  well_formed d → well_formed (run_transaction eng rs d).2.
Proof.
  intros Hd. unfold run_transaction.
  destruct (exec_requests eng rs d) eqn:H; simpl; [done|].
  by eapply exec_requests_well_formed.
Qed.

Lemma write_promise_well_formed eng rs d :
  well_formed d → well_formed (write_promise eng rs d).2.
Proof.
  intros Hd. pose proof (run_transaction_well_formed eng rs d Hd) as H.
  unfold write_promise. by destruct (run_transaction eng rs d) as [[e|] d'].
Qed.

Lemma transaction_promise_well_formed eng rs d :
  well_formed d → well_formed (transaction_promise eng rs d).2.
Proof.
  intros Hd. pose proof (run_transaction_well_formed eng rs d Hd) as H.
  unfold transaction_promise. by destruct (run_transaction eng rs d) as [[e|] d'].
Qed.

Lemma bind_keeps {A B} (I : IDBDatabase → Prop) (p : Async A) (k : A → Async B) d :
  (∀ d, I d → I (p d).2) → (∀ a d, I d → I (k a d).2) →
  I d → I (bind p k d).2.
Proof.
  intros Hp Hk Hd. unfold bind. specialize (Hp d Hd).
  destruct (p d) as [[a|e|] d']; simpl in *; auto.
Qed.

Lemma openDB_keeps (I : IDBDatabase → Prop) eng d : I d → I (openDB eng d).2.
Proof. unfold openDB. by destruct (open_error eng). Qed.

(** Keys.  Every operation that writes, the import of any object
    included, leaves each record under the value of its own key path,
    whatever the engine does. *)
Theorem writes_keep_well_formed (eng : Engine) (d : IDBDatabase)
    (t : Transaction.t) (id : string) (b : MonthlyBudget.t) (data : BackupData.t) :
  well_formed d →
  well_formed (db.addTransaction eng t d).2 ∧
  well_formed (db.updateTransaction eng t d).2 ∧
  well_formed (db.deleteTransaction eng id d).2 ∧
  well_formed (db.setMonthlyBudget eng b d).2 ∧
  well_formed (db.clearAllData eng d).2 ∧
  well_formed (db.importDatabase eng data d).2.
Proof.
  intros Hd.
  assert (∀ rs d, well_formed d →
            well_formed (bind (openDB eng) (λ _, write_promise eng rs) d).2) as Hw.
  { intros rs d0 Hd0. apply (bind_keeps well_formed); [|intros _|done].
    - intros d1. apply openDB_keeps.
    - intros d1. apply write_promise_well_formed. }
  assert (∀ rs d, well_formed d →
            well_formed (bind (openDB eng) (λ _, transaction_promise eng rs) d).2)
    as Hx.
  { intros rs d0 Hd0. apply (bind_keeps well_formed); [|intros _|done].
    - intros d1. apply openDB_keeps.
    - intros d1. apply transaction_promise_well_formed. }
  do 4 (split; [by apply Hw|]). split; [by apply Hx|].
  unfold db.importDatabase.
  apply (bind_keeps well_formed); [intros d0; apply Hx | intros _ | done].
  intros d0 Hd0.
  apply (bind_keeps well_formed); [intros d1; apply openDB_keeps | intros _ | done].
  intros d1 Hd1.
  destruct (BackupData.transactions data); [|done].
  destruct (BackupData.budgets data).
  - by apply transaction_promise_well_formed.
  - simpl. by apply run_transaction_well_formed.
Qed.

Lemma writes_keep_well_formed_witness :
  let t := Transaction.mk "k" "mercado" 1 DEBIT "2024-05-10" "09:00" 100 in
  let data := BackupData.mk None None (Some [t; t]) None in
  well_formed (db.addTransaction healthy t empty_db).2 ∧
  well_formed (db.importDatabase healthy data empty_db).2.
Proof.
  intros t data.
  destruct (writes_keep_well_formed healthy empty_db t "k"
              (MonthlyBudget.mk "2024-05" 0) data well_formed_empty)
    as (H1 & _ & _ & _ & _ & H6).
  split; [exact H1 | exact H6].
Defined.

Lemma write_promise_rejected eng rs d e :
  (write_promise eng rs d).1 = Rejected e → (write_promise eng rs d).2 = d.
Proof.
  unfold write_promise, run_transaction.
  by destruct (exec_requests eng rs d).
Qed.

Lemma single_transaction_rejected eng rs d e :
  (bind (openDB eng) (λ _, write_promise eng rs) d).1 = Rejected e →
  (bind (openDB eng) (λ _, write_promise eng rs) d).2 = d.
Proof.
  rewrite bind_openDB. destruct (open_error eng); [done|].
  apply write_promise_rejected.
Qed.

Lemma transaction_promise_rejected eng rs d e :
  (transaction_promise eng rs d).1 = Rejected e →
  (transaction_promise eng rs d).2 = d.
Proof.
  unfold transaction_promise, run_transaction.
  by destruct (exec_requests eng rs d).
Qed.

(** All or nothing.  When the promise of an add, an update, a delete, a
    budget write or a clear is rejected, for whatever reason, the store
    is as it was before the call. *)
Theorem rejected_write_leaves_store (eng : Engine) (d : IDBDatabase)
    (t : Transaction.t) (id : string) (b : MonthlyBudget.t) (e : Error) :
  ((db.addTransaction eng t d).1 = Rejected e → (db.addTransaction eng t d).2 = d) ∧
  ((db.updateTransaction eng t d).1 = Rejected e →
   (db.updateTransaction eng t d).2 = d) ∧
  ((db.deleteTransaction eng id d).1 = Rejected e →
   (db.deleteTransaction eng id d).2 = d) ∧
  ((db.setMonthlyBudget eng b d).1 = Rejected e →
   (db.setMonthlyBudget eng b d).2 = d) ∧
  ((db.clearAllData eng d).1 = Rejected e → (db.clearAllData eng d).2 = d).
Proof.
  do 4 (split; [apply single_transaction_rejected|]).
  unfold db.clearAllData. rewrite bind_openDB.
  destruct (open_error eng); [done|]. apply transaction_promise_rejected.
Qed.

Lemma rejected_write_leaves_store_witness :
  let t := Transaction.mk "k" "mercado" 1 DEBIT "2024-05-10" "09:00" 100 in
  let t' := Transaction.mk "k" "feira" 2 CREDIT "2024-05-12" "11:00" 200 in
  let d := with_transactions empty_db {[ "k" := t ]} in
  (db.addTransaction healthy t' d).2 = d.
Proof.
  intros t t' d.
  apply (proj1 (rejected_write_leaves_store healthy d t' "k"
                  (MonthlyBudget.mk "2024-05" 0) ConstraintError)).
  reflexivity.
Defined.


(** ** When the import fails *)

Lemma exec_add_budgets_inv bs d d' :
  exec_requests healthy (map AddBudget bs) d = inr d' →
  NoDup (MonthlyBudget.month <$> bs) ∧
  ∀ b, b ∈ bs → budgets_store d !! MonthlyBudget.month b = None.
Proof.
  revert d. induction bs as [|b bs IH]; intros d; simpl.
  - intros _. split; [constructor|]. by intros b ?%elem_of_nil.
  - unfold exec_request. simpl. unfold store_add.
    destruct (budgets_store d !! MonthlyBudget.month b) eqn:Hb; [done|].
    intros [Hnd Hfresh]%IH. simpl in Hfresh.
    assert (∀ b', b' ∈ bs → MonthlyBudget.month b ≠ MonthlyBudget.month b') as Hne.
    { intros b' Hb' Heq. specialize (Hfresh b' Hb').
      by rewrite <-Heq, lookup_insert_eq in Hfresh. }
    split.
    + constructor; [|done]. intros (b' & Heq & Hb')%list_elem_of_fmap.
      by apply (Hne b').
    + intros b' [->|Hb']%elem_of_cons; [done|].
      specialize (Hfresh b' Hb'). rewrite lookup_insert_ne in Hfresh; auto.
Qed.

Lemma exec_add_budgets_error bs d e :
  exec_requests healthy (map AddBudget bs) d = inl e → e = ConstraintError.
Proof.
  revert d. induction bs as [|b bs IH]; intros d; simpl; [done|].
  unfold exec_request. simpl. unfold store_add.
  destruct (budgets_store d !! MonthlyBudget.month b); [congruence | apply IH].
Qed.

(** No way back.  On an engine without faults, the import of a snapshot
    that has both fields but an id or a month twice is rejected, and the
    store is left empty: what it held before the import is gone and
    nothing of the snapshot is in it.  The promise is rejected with the
    null its transaction has for an error when the add fails, not with
    the ConstraintError of the add. *)
Theorem importDatabase_not_rolled_back (d : IDBDatabase) (data : BackupData.t)
    (ts : list Transaction.t) (bs : list MonthlyBudget.t) :
  BackupData.transactions data = Some ts →
  BackupData.budgets data = Some bs →
  ¬ NoDup (Transaction.id <$> ts) ∨ ¬ NoDup (MonthlyBudget.month <$> bs) →
  db.importDatabase healthy data d = (Rejected Null, empty_db) ∧
  exec_requests healthy (map AddTransaction ts ++ map AddBudget bs) empty_db
    = inl ConstraintError.
Proof.
  intros Hts Hbs Hdup.
  assert (exec_requests healthy (map AddTransaction ts ++ map AddBudget bs) empty_db
          = inl ConstraintError) as Hfail; [|split; [|done]].
  2:{ unfold db.importDatabase.
      unfold bind at 1. rewrite clearAllData_healthy. rewrite bind_openDB. simpl.
      rewrite Hts, Hbs. unfold transaction_promise, run_transaction.
      by rewrite Hfail. }
  rewrite exec_requests_app.
  destruct (exec_requests healthy (map AddTransaction ts) empty_db) as [e|d1] eqn:H1.
  { by rewrite (exec_add_transactions_error _ _ _ H1). }
  destruct (exec_requests healthy (map AddBudget bs) d1) as [e|d2] eqn:H2.
  { by rewrite (exec_add_budgets_error _ _ _ H2). }
  apply exec_add_transactions_inv in H1 as [H1 _].
  apply exec_add_budgets_inv in H2 as [H2 _]. tauto.
Qed.

Lemma importDatabase_not_rolled_back_witness :
  let old := Transaction.mk "old" "aluguel" 900 DEBIT "2024-04-05" "10:00" 50 in
  let t := Transaction.mk "a" "mercado" 1 DEBIT "2024-05-10" "09:00" 100 in
  let b1 := MonthlyBudget.mk "2024-05" 1500 in
  let b2 := MonthlyBudget.mk "2024-05" 1800 in
  let data := BackupData.mk (Some 1) (Some 0) (Some [t]) (Some [b1; b2]) in
  db.importDatabase healthy data (with_transactions empty_db {[ "old" := old ]})
    = (Rejected Null, empty_db).
Proof.
  intros old t b1 b2 data.
  apply (importDatabase_not_rolled_back
           (with_transactions empty_db {[ "old" := old ]}) data [t] [b1; b2]).
  - reflexivity.
  - reflexivity.
  - right. simpl. intros Hnd. apply NoDup_cons in Hnd as [Hin _].
    apply Hin. left.
Defined.

Lemma importDatabase_no_transactions d data :
  BackupData.transactions data = None →
  db.importDatabase healthy data d = (Rejected TypeError, empty_db).
Proof.
  intros Hts. unfold db.importDatabase. unfold bind at 1.
  rewrite clearAllData_healthy, bind_openDB. simpl. by rewrite Hts.
Qed.

(** An object without the fields, handed to [importDatabase] itself.  On
    an engine without faults the promise is rejected with TypeError, but
    only after the store was emptied; and when it is the [budgets] field
    alone that is absent, the transactions of the object (no id twice)
    have been written all the same. *)
Theorem importDatabase_missing_field (d : IDBDatabase) (data : BackupData.t) :
  (BackupData.transactions data = None →
   db.importDatabase healthy data d = (Rejected TypeError, empty_db)) ∧
  (∀ ts, BackupData.transactions data = Some ts →
         BackupData.budgets data = None →
         NoDup (Transaction.id <$> ts) →
         db.importDatabase healthy data d =
         (Rejected TypeError,
          {| transactions_store := records_map Transaction.id ts;
             budgets_store := ∅ |})).
Proof.
  unfold db.importDatabase. unfold bind at 1 3.
  rewrite clearAllData_healthy, !bind_openDB. simpl. split.
  - by intros ->.
  - intros ts -> -> Hnd. unfold run_transaction.
    rewrite exec_add_transactions; [|done..|by intros; apply lookup_empty].
    simpl. unfold with_transactions. simpl. by rewrite (right_id_L ∅ (∪)).
Qed.

Lemma importDatabase_missing_field_witness :
  let old := MonthlyBudget.mk "2024-04" 700 in
  let t := Transaction.mk "a" "mercado" 1 DEBIT "2024-05-10" "09:00" 100 in
  let d := with_budgets empty_db {[ "2024-04" := old ]} in
  db.importDatabase healthy BackupData.empty_object d = (Rejected TypeError, empty_db) ∧
  db.importDatabase healthy (BackupData.mk (Some 1) (Some 0) (Some [t]) None) d =
    (Rejected TypeError,
     {| transactions_store := records_map Transaction.id [t]; budgets_store := ∅ |}).
Proof.
  intros old t d. split.
  - apply (proj1 (importDatabase_missing_field d BackupData.empty_object)).
    reflexivity.
  - apply (proj2 (importDatabase_missing_field d
                    (BackupData.mk (Some 1) (Some 0) (Some [t]) None)) [t]).
    + reflexivity.
    + reflexivity.
    + simpl. repeat constructor. by intros ?%elem_of_nil.
Defined.

(** ** What the export holds *)

Global Instance key_le_trans {V} (keyPath : V → string) : Transitive (key_le keyPath).
Proof. intros a b c. unfold key_le. apply transitivity. Qed.

Global Instance key_le_total {V} (keyPath : V → string) : Total (key_le keyPath).
Proof. intros a b. unfold key_le. apply total, _. Qed.

Lemma store_getAll_sorted {V} (keyPath : V → string) (m : gmap string V) :
  StronglySorted (key_le keyPath) (store_getAll keyPath m).
Proof. unfold store_getAll. apply StronglySorted_merge_sort; apply _. Qed.

Lemma store_getAll_records_map {V} (keyPath : V → string) (l : list V) :
  NoDup (keyPath <$> l) → store_getAll keyPath (records_map keyPath l) ≡ₚ l.
Proof.
  intros Hnd. unfold store_getAll, records_map.
  rewrite merge_sort_Permutation, map_to_list_to_map.
  - rewrite <-list_fmap_compose. by rewrite list_fmap_id.
  - by rewrite <-list_fmap_compose.
Qed.

(** The export, on an engine without faults, resolves to an object with
    version 1, the time stamp given, and the two lists: each has exactly
    the records the store holds, every key once, in the order of the
    keys. *)
Theorem exportDatabase_snapshot (d : IDBDatabase) (now : Z) :
  well_formed d →
  ∃ ts bs,
    db.exportDatabase healthy now d =
      (Resolved (BackupData.mk (Some 1) (Some now) (Some ts) (Some bs)), d) ∧
    (∀ t, t ∈ ts ↔ holds (transactions_store d) t) ∧
    (∀ b, b ∈ bs ↔ holds (budgets_store d) b) ∧
    NoDup (Transaction.id <$> ts) ∧
    NoDup (MonthlyBudget.month <$> bs) ∧
    StronglySorted (key_le Transaction.id) ts ∧
    StronglySorted (key_le MonthlyBudget.month) bs.
Proof.
  intros [Hts Hbs]. do 2 eexists. split; [reflexivity|].
  split; [intros t; apply elem_of_store_getAll|].
  split; [intros b; apply elem_of_store_getAll|].
  split; [by apply getAll_keys_NoDup|].
  split; [by apply getAll_keys_NoDup|].
  split; apply store_getAll_sorted.
Qed.

Lemma exportDatabase_snapshot_witness :
  let t1 := Transaction.mk "b" "mercado" 1 DEBIT "2024-05-10" "09:00" 100 in
  let t2 := Transaction.mk "a" "padaria" 2 CREDIT "2024-05-11" "08:00" 200 in
  let d := with_transactions empty_db {[ "b" := t1; "a" := t2 ]} in
  ∃ ts bs,
    db.exportDatabase healthy 7 d =
      (Resolved (BackupData.mk (Some 1) (Some 7) (Some ts) (Some bs)), d) ∧
    StronglySorted (key_le Transaction.id) ts.
Proof.
  intros t1 t2 d.
  destruct (exportDatabase_snapshot d 7) as (ts & bs & H1 & _ & _ & _ & _ & H6 & _).
  - split; [|apply keyed_empty]. intros k v. simpl.
    rewrite lookup_insert_Some, lookup_singleton_Some.
    intros [[<- <-] | [_ [<- <-]]]; reflexivity.
  - exists ts, bs. split; [exact H1 | exact H6].
Defined.

(** Import, then export.  On an engine without faults, a snapshot with
    both fields and no key twice comes back from an import followed by an
    export with the same records in each list, in the order of the keys. *)
Theorem import_then_export (d : IDBDatabase) (data : BackupData.t)
    (ts : list Transaction.t) (bs : list MonthlyBudget.t) (now : Z) :
  BackupData.transactions data = Some ts →
  BackupData.budgets data = Some bs →
  NoDup (Transaction.id <$> ts) →
  NoDup (MonthlyBudget.month <$> bs) →
  ∃ ts' bs' d',
    bind (db.importDatabase healthy data) (λ _, db.exportDatabase healthy now) d =
      (Resolved (BackupData.mk (Some 1) (Some now) (Some ts') (Some bs')), d') ∧
    ts' ≡ₚ ts ∧ bs' ≡ₚ bs ∧
    StronglySorted (key_le Transaction.id) ts' ∧
    StronglySorted (key_le MonthlyBudget.month) bs'.
Proof.
  intros Hts Hbs Hnd1 Hnd2. do 3 eexists. split.
  { unfold bind at 1. rewrite (importDatabase_healthy d data ts bs) by done.
    reflexivity. }
  simpl. split; [by apply store_getAll_records_map|].
  split; [by apply store_getAll_records_map|].
  split; apply store_getAll_sorted.
Qed.

Lemma import_then_export_witness :
  let t1 := Transaction.mk "b" "mercado" 1 DEBIT "2024-05-10" "09:00" 100 in
  let t2 := Transaction.mk "a" "padaria" 2 CREDIT "2024-05-11" "08:00" 200 in
  let data := BackupData.mk (Some 1) (Some 0) (Some [t1; t2]) (Some []) in
  ∃ ts' bs' d',
    bind (db.importDatabase healthy data) (λ _, db.exportDatabase healthy 7) empty_db =
      (Resolved (BackupData.mk (Some 1) (Some 7) (Some ts') (Some bs')), d') ∧
    ts' ≡ₚ [t1; t2].
Proof.
  intros t1 t2 data.
  destruct (import_then_export empty_db data [t1; t2] [] 7)
    as (ts' & bs' & d' & H1 & H2 & _).
  - reflexivity.
  - reflexivity.
  - simpl. repeat constructor; rewrite ?elem_of_cons, ?elem_of_nil; intuition discriminate.
  - constructor.
  - exists ts', bs', d'. split; [exact H1 | exact H2].
Defined.

(** ** Engine errors, at an engine that has them *)

Lemma open_error_surfaces_witness :
  let eng := {| open_error := Some (EngineError "InvalidStateError");
                request_error := λ _ _, None |} in
  db.getMonthlyBudget eng "2024-05" empty_db =
    (Rejected (EngineError "InvalidStateError"), empty_db) ∧
  db.exportDatabase eng 0 empty_db =
    (Rejected (EngineError "InvalidStateError"), empty_db).
Proof.
  intros eng.
  destruct (open_error_surfaces eng (EngineError "InvalidStateError") empty_db
              (Transaction.mk "k" "mercado" 1 DEBIT "2024-05-10" "09:00" 100)
              "k" "2024-05" (MonthlyBudget.mk "2024-05" 0) 0
              BackupData.empty_object)
    as (_ & _ & _ & _ & _ & H6 & _ & H8 & _).
  - reflexivity.
  - split; [exact H6 | exact H8].
Defined.

Lemma request_error_surfaces_witness :
  let eng := {| open_error := None;
                request_error := λ s k,
                  match s, k with
                  | STORE_BUDGETS, KPut => Some (EngineError "QuotaExceededError")
                  | _, _ => None
                  end |} in
  let b := MonthlyBudget.mk "2024-05" 1500 in
  db.setMonthlyBudget eng b empty_db =
    (Rejected (EngineError "QuotaExceededError"), empty_db).
Proof.
  intros eng b.
  destruct (request_error_surfaces eng (EngineError "QuotaExceededError") empty_db
              (Transaction.mk "k" "mercado" 1 DEBIT "2024-05-10" "09:00" 100)
              "k" "2024-05" b)
    as (_ & _ & _ & _ & H5 & _).
  - reflexivity.
  - apply H5. reflexivity.
Defined.

(** ** Dates the month query accepts *)

Section Prefix.
Implicit Types p a b x s : string.

Lemma str_app_cons c p a : (String c p ++ a = String c (p ++ a))%string.
Proof. reflexivity. Qed.

Lemma str_app_assoc p a b : ((p ++ a) ++ b = p ++ (a ++ b))%string.
Proof.
  induction p as [|c p IH]; [done|]. by rewrite !str_app_cons, IH.
Qed.

Lemma str_compare_app p a b :
  String.compare (p ++ a) (p ++ b) = String.compare a b.
Proof.
  induction p as [|c p IH]; [done|]. rewrite !str_app_cons. simpl.
  pose proof (Ascii.compare_antisym c c) as H.
  by destruct (Ascii.compare c c).
Qed.

Lemma str_le_app p a b : String.le (p ++ a) (p ++ b) ↔ String.le a b.
Proof. unfold String.le, String.leb. by rewrite str_compare_app. Qed.

(** A string between two strings with a common beginning has that
    beginning too. *)
Lemma str_le_between p a b x :
  String.le (p ++ a) x → String.le x (p ++ b) →
  ∃ r, x = (p ++ r)%string ∧ String.le a r ∧ String.le r b.
Proof.
  revert x. induction p as [|c p IH]; intros x.
  - intros Ha Hb. by exists x.
  - rewrite !str_app_cons. destruct x as [|c' x]; [done|].
    unfold String.le, String.leb. simpl.
    rewrite (Ascii.compare_antisym c c').
    destruct (Ascii.compare c' c) eqn:Hc; simpl; [|done..].
    apply Ascii.compare_eq_iff in Hc as ->.
    intros Ha Hb. destruct (IH x Ha Hb) as (r & -> & Hr). by exists r.
Qed.

Lemma str_app_inj_length p q a b :
  String.length p = String.length q → (p ++ a = q ++ b)%string → p = q.
Proof.
  revert q. induction p as [|c p IH]; intros [|c' q]; simpl; try done.
  rewrite !str_app_cons. intros [= Hlen] [= -> Heq]. f_equal. by apply IH.
Qed.
End Prefix.

(** The range of a month.  A transaction the month query returns has a
    date that begins with the month token and a hyphen, and what follows
    lies between "01" and "31" as a string.  So no transaction is returned
    for two different tokens of one length, and a date that goes on after
    the 31 (a time stamp after the day, say) is not returned. *)
Theorem month_query_dates (d : IDBDatabase) (t : Transaction.t) :
  (∀ month, returns d month t →
     ∃ rest, Transaction.date t = (month ++ "-" ++ rest)%string ∧
             String.le "01" rest ∧ String.le rest "31") ∧
  (∀ month1 month2,
     String.length month1 = String.length month2 →
     returns d month1 t → returns d month2 t → month1 = month2) ∧
  (∀ month more,
     more ≠ "" → Transaction.date t = (month ++ "-31" ++ more)%string →
     omits d month t).
Proof.
  assert (∀ month, returns d month t →
     ∃ rest, Transaction.date t = (month ++ "-" ++ rest)%string ∧
             String.le "01" rest ∧ String.le rest "31") as Hprefix.
  { intros month (_ & Hlo & Hhi)%returns_iff.
    change (month ++ "-01")%string with (month ++ ("-" ++ "01"))%string in Hlo.
    change (month ++ "-31")%string with (month ++ ("-" ++ "31"))%string in Hhi.
    rewrite <-str_app_assoc in Hlo, Hhi.
    destruct (str_le_between _ _ _ _ Hlo Hhi) as (r & Hr & H1 & H2).
    exists r. by rewrite Hr, str_app_assoc. }
  split; [done|]. split.
  - intros month1 month2 Hlen (r1 & H1 & _)%Hprefix (r2 & H2 & _)%Hprefix.
    rewrite H1 in H2. by eapply str_app_inj_length.
  - intros month more Hmore Hdate. apply omits_iff.
    intros (_ & _ & Hhi)%returns_iff. rewrite Hdate in Hhi.
    change (month ++ "-31" ++ more)%string
      with (month ++ ("-31" ++ more))%string in Hhi.
    apply str_le_app in Hhi. simpl in Hhi. by destruct more.
Qed.

Lemma month_query_dates_witness :
  let t := Transaction.mk "k" "mercado" 1 DEBIT "2024-05-31T10:00" "09:00" 100 in
  let d := with_transactions empty_db {[ "k" := t ]} in
  omits d "2024-05" t.
Proof.
  intros t d.
  apply (proj2 (proj2 (month_query_dates d t)) "2024-05" "T10:00").
  - discriminate.
  - reflexivity.
Defined.

(** ** The form *)

Section FormProps.
Context {R : Type} (parseFloat : string → number) (format : string → string).
Context (onAdd : FormData.t → R) (onUpdate : string → FormData.t → R).

Lemma handleSubmit_calls (initialData : option Transaction.t)
    (localDate localTime : string) (f f' : TransactionForm.Form) (r : R) :
  TransactionForm.handleSubmit parseFloat onAdd onUpdate
    initialData localDate localTime f = (Some r, f') →
  ∃ q, (0 < q)%Q ∧
       TransactionForm.description f ≠ "" ∧
       TransactionForm.date f ≠ "" ∧
       TransactionForm.time f ≠ "" ∧
       r = match initialData with
           | Some i =>
               onUpdate (Transaction.id i)
                 (FormData.mk (TransactionForm.description f) q
                    (TransactionForm.method f) (TransactionForm.date f)
                    (TransactionForm.time f))
           | None =>
               onAdd
                 (FormData.mk (TransactionForm.description f) q
                    (TransactionForm.method f) (TransactionForm.date f)
                    (TransactionForm.time f))
           end.
Proof.
  unfold TransactionForm.handleSubmit.
  destruct (truthy (TransactionForm.description f)) eqn:Hd; [|done].
  destruct (truthy (TransactionForm.amount f)) eqn:Ha; [|done].
  destruct (truthy (TransactionForm.date f)) eqn:Hdt; [|done].
  destruct (truthy (TransactionForm.time f)) eqn:Ht; [|done].
  cbn [negb orb].
  destruct (parseFloat _) as [|q] eqn:Hq; [done|].
  cbn [isNaN orb TransactionForm.le0].
  destruct (Qle_bool q 0) eqn:Hle; [done|].
  intros Hr. exists q. apply truthy_nonempty in Hd, Hdt, Ht.
  split.
  { apply Qnot_le_lt. intros Hq0. apply Qle_bool_iff in Hq0. congruence. }
  do 3 (split; [done|]).
  by destruct initialData as [i|]; injection Hr as <- <-.
Qed.

(** Submit.  Whenever [handleSubmit] calls one of its props, the
    description, the date and the time of the form are not empty and the
    amount text parsed to a number above 0, and these are the data handed
    over.  With a transaction being edited it is [onUpdate], with the id
    of that transaction, and the form stays; otherwise it is [onAdd], the
    description and the amount are emptied, and a second submit right
    after it calls nothing. *)
Theorem handleSubmit_validates (initialData : option Transaction.t)
    (localDate localTime : string) (f f' : TransactionForm.Form) (r : R) :
  TransactionForm.handleSubmit parseFloat onAdd onUpdate
    initialData localDate localTime f = (Some r, f') →
  ∃ q,
    parseFloat (Summary.replace_comma
                  (Summary.remove_dots (TransactionForm.amount f))) = Num q ∧
    (0 < q)%Q ∧
    TransactionForm.description f ≠ "" ∧
    TransactionForm.date f ≠ "" ∧
    TransactionForm.time f ≠ "" ∧
    let data :=
      FormData.mk (TransactionForm.description f) q (TransactionForm.method f)
        (TransactionForm.date f) (TransactionForm.time f) in
    match initialData with
    | Some i => r = onUpdate (Transaction.id i) data ∧ f' = f
    | None =>
        r = onAdd data ∧
        TransactionForm.description f' = "" ∧
        TransactionForm.amount f' = "" ∧
        TransactionForm.date f' = localDate ∧
        TransactionForm.time f' = localTime ∧
        (TransactionForm.handleSubmit parseFloat onAdd onUpdate
           None localDate localTime f').1 = None
    end.
Proof.
  unfold TransactionForm.handleSubmit.
  destruct (truthy (TransactionForm.description f)) eqn:Hd; [|done].
  destruct (truthy (TransactionForm.amount f)) eqn:Ha; [|done].
  destruct (truthy (TransactionForm.date f)) eqn:Hdt; [|done].
  destruct (truthy (TransactionForm.time f)) eqn:Ht; [|done].
  cbn [negb orb].
  destruct (parseFloat _) as [|q] eqn:Hq; [done|].
  cbn [isNaN orb TransactionForm.le0].
  destruct (Qle_bool q 0) eqn:Hle; [done|].
  intros Hr. exists q. apply truthy_nonempty in Hd, Hdt, Ht.
  split; [done|]. split.
  { apply Qnot_le_lt. intros Hq0. apply Qle_bool_iff in Hq0. congruence. }
  do 3 (split; [done|]). cbn zeta.
  destruct initialData as [i|]; injection Hr as <- <-; [done|].
  by repeat split.
Qed.
End FormProps.

Lemma handleSubmit_validates_witness :
  let f := {| TransactionForm.description := "mercado";
              TransactionForm.amount := "12,50";
              TransactionForm.method := DEBIT;
              TransactionForm.date := "2024-05-10";
              TransactionForm.time := "09:00" |} in
  ∃ q, parseFloat_amount "12.50" = Num q ∧ (0 < q)%Q.
Proof.
  intros f.
  destruct (handleSubmit_validates parseFloat_amount
              (λ data, data) (λ (_ : string) data, data) None
              "2024-05-11" "10:30" f
              {| TransactionForm.description := ""; TransactionForm.amount := "";
                 TransactionForm.method := DEBIT;
                 TransactionForm.date := "2024-05-11";
                 TransactionForm.time := "10:30" |}
              (FormData.mk "mercado" 12.5 DEBIT "2024-05-10" "09:00"))
    as (q & H1 & H2 & _).
  - reflexivity.
  - exists q. split; [exact H1 | exact H2].
Defined.

(** ** The handlers of the App component *)

Lemma loadData_db eng st d : (App.loadData eng st d).2 = d.
Proof.
  unfold App.loadData.
  pose proof (reads_leave_store eng d (App.currentMonth st) 0) as (H1 & H2 & _).
  simpl App.currentMonth.
  destruct (db.getTransactionsByMonth eng (App.currentMonth st) d) as [p1 d1].
  simpl in H1. subst d1.
  destruct (db.getMonthlyBudget eng (App.currentMonth st) d) as [p2 d2].
  simpl in H2. subst d2.
  destruct (Promise_all p1 p2) as [[txs limit]| |]; done.
Qed.

Lemma after_reload_db eng (p : Async unit) (g : App.State → App.State) st d :
  (App.after p (λ st, App.reload eng (g st)) st d).2 = (p d).2.
Proof.
  unfold App.after, App.reload. destruct (p d) as [[[]|e|] d']; simpl; try done.
  pose proof (loadData_db eng (g st) d') as H.
  by destruct (App.loadData eng (g st) d').
Qed.

Lemma holds_after_add eng t d t0 :
  holds (transactions_store (db.addTransaction eng t d).2) t0 →
  t0 = t ∨ holds (transactions_store d) t0.
Proof.
  unfold db.addTransaction. rewrite bind_openDB.
  destruct (open_error eng); [by right|].
  unfold write_promise, run_transaction, exec_requests, exec_request. simpl.
  destruct (request_error eng _ _); [by right|].
  unfold store_add. destruct (transactions_store d !! Transaction.id t); [by right|].
  simpl. intros [k [[_ <-]|[_ Hk]]%lookup_insert_Some]; [by left|].
  right. by exists k.
Qed.

Lemma holds_after_update eng t d t0 :
  holds (transactions_store (db.updateTransaction eng t d).2) t0 →
  t0 = t ∨ holds (transactions_store d) t0.
Proof.
  unfold db.updateTransaction. rewrite bind_openDB.
  destruct (open_error eng); [by right|].
  unfold write_promise, run_transaction, exec_requests, exec_request. simpl.
  destruct (request_error eng _ _); [by right|].
  simpl. unfold store_put.
  intros [k [[_ <-]|[_ Hk]]%lookup_insert_Some]; [by left|].
  right. by exists k.
Qed.

(** The form and the store.  When every stored transaction is one the
    form lets through, it is still so after a submit of the form wired to
    [handleAddTransaction] and [handleUpdateTransaction], whatever the
    form holds, whatever the engine does: no submit stores a transaction
    without a description, a date or a time, or with an amount of 0 or
    less. *)
Theorem form_keeps_entered (eng : Engine) (parseFloat : string → number)
    (uuid : string) (now : Z) (initialData : option Transaction.t)
    (localDate localTime : string) (f f' : TransactionForm.Form)
    (h : App.Handler) (st : App.State) (d : IDBDatabase) :
  (∀ t, holds (transactions_store d) t → entered t) →
  TransactionForm.handleSubmit parseFloat
    (App.handleAddTransaction eng uuid now) (App.handleUpdateTransaction eng now)
    initialData localDate localTime f = (Some h, f') →
  ∀ t, holds (transactions_store (h st d).2) t → entered t.
Proof.
  intros Hd Hsub.
  apply handleSubmit_calls in Hsub as (q & Hq & H1 & H2 & H3 & Hh).
  intros t. destruct initialData as [i|]; subst h.
  - unfold App.handleUpdateTransaction. rewrite after_reload_db.
    intros [->|Ht]%holds_after_update; [by repeat split | by apply Hd].
  - unfold App.handleAddTransaction.
    rewrite (after_reload_db eng _ (λ st, st)).
    intros [->|Ht]%holds_after_add; [by repeat split | by apply Hd].
Qed.

Lemma form_keeps_entered_witness :
  let f := {| TransactionForm.description := "mercado";
              TransactionForm.amount := "12,50";
              TransactionForm.method := DEBIT;
              TransactionForm.date := "2024-05-10";
              TransactionForm.time := "09:00" |} in
  let st := {| App.currentMonth := "2024-05"; App.transactions := [];
               App.budget := 0; App.isLoading := false;
               App.editingTransaction := None |} in
  let t := Transaction.mk "u-1" "mercado" 12.5 DEBIT "2024-05-10" "09:00" 77 in
  holds (transactions_store
           (App.handleAddTransaction healthy "u-1" 77
              (FormData.mk "mercado" 12.5 DEBIT "2024-05-10" "09:00") st empty_db).2) t ∧
  entered t.
Proof.
  intros f st t.
  assert (holds (transactions_store
           (App.handleAddTransaction healthy "u-1" 77
              (FormData.mk "mercado" 12.5 DEBIT "2024-05-10" "09:00") st empty_db).2) t)
    as Hheld.
  { exists "u-1". reflexivity. }
  split; [exact Hheld|].
  apply (form_keeps_entered healthy parseFloat_amount "u-1" 77 None
           "2024-05-11" "10:30" f
           {| TransactionForm.description := ""; TransactionForm.amount := "";
              TransactionForm.method := DEBIT;
              TransactionForm.date := "2024-05-11";
              TransactionForm.time := "10:30" |}
           (App.handleAddTransaction healthy "u-1" 77
              (FormData.mk "mercado" 12.5 DEBIT "2024-05-10" "09:00"))
           st empty_db).
  - intros t0 [k Hk]. simpl in Hk. rewrite lookup_empty in Hk. discriminate Hk.
  - reflexivity.
  - exact Hheld.
Defined.

Lemma loadData_healthy st d :
  App.loadData healthy st d =
  (App.setLoaded (App.setIsLoading st true)
     (sort db.compare
        (date_index_getAll (App.currentMonth st ++ "-01") (App.currentMonth st ++ "-31")
           (transactions_store d)))
     (match budgets_store d !! App.currentMonth st with
      | Some data => MonthlyBudget.limit data
      | None => 0%Q
      end), d).
Proof. done. Qed.

(** Load.  On an engine without faults [loadData] puts on display the
    list the month query resolves to for the current month and the budget
    of that month, and takes the loading flag down.  When the database
    cannot be opened or one of the two reads fails, the error goes no
    further: the list and the budget on display stay what they were, and
    the loading flag is taken down all the same. *)
Theorem loadData_shows (st : App.State) (d : IDBDatabase) :
  (∃ out limit,
     db.getTransactionsByMonth healthy (App.currentMonth st) d = (Resolved out, d) ∧
     db.getMonthlyBudget healthy (App.currentMonth st) d = (Resolved limit, d) ∧
     App.loadData healthy st d =
       ({| App.currentMonth := App.currentMonth st; App.transactions := out;
           App.budget := limit; App.isLoading := false;
           App.editingTransaction := App.editingTransaction st |}, d)) ∧
  (∀ eng,
     is_Some (open_error eng) ∨
     is_Some (request_error eng STORE_TRANSACTIONS KIndexGetAll) ∨
     is_Some (request_error eng STORE_BUDGETS KGet) →
     App.loadData eng st d =
       ({| App.currentMonth := App.currentMonth st;
           App.transactions := App.transactions st;
           App.budget := App.budget st; App.isLoading := false;
           App.editingTransaction := App.editingTransaction st |}, d)).
Proof.
  split.
  - do 2 eexists. split; [apply getTransactionsByMonth_healthy|].
    split; [reflexivity|]. by rewrite loadData_healthy.
  - intros eng Herr. unfold App.loadData.
    unfold db.getTransactionsByMonth, db.getMonthlyBudget.
    unfold bind, openDB. simpl App.currentMonth.
    destruct (open_error eng) as [e|]; [done|].
    destruct (request_error eng STORE_TRANSACTIONS KIndexGetAll) as [e1|],
      (request_error eng STORE_BUDGETS KGet) as [e2|]; try done.
    destruct Herr as [[? [=]]|[[? [=]]|[? [=]]]].
Qed.

Lemma loadData_shows_witness :
  let eng := {| open_error := None;
                request_error := λ s k,
                  match s, k with
                  | STORE_BUDGETS, KGet => Some (EngineError "UnknownError")
                  | _, _ => None
                  end |} in
  let t := Transaction.mk "k" "mercado" 1 DEBIT "2024-05-10" "09:00" 100 in
  let st := {| App.currentMonth := "2024-05"; App.transactions := [t];
               App.budget := 300; App.isLoading := false;
               App.editingTransaction := None |} in
  App.loadData eng st empty_db = (st, empty_db).
Proof.
  intros eng t st.
  apply (proj2 (loadData_shows st empty_db) eng).
  right. right. eexists. reflexivity.
Defined.

Lemma find_unique (id : string) (l : list Transaction.t) (o : Transaction.t) :
  o ∈ l → Transaction.id o = id →
  (∀ o', o' ∈ l → Transaction.id o' = id → o' = o) →
  find (λ t, (Transaction.id t =? id)%string) l = Some o.
Proof.
  intros Ho Hid Huniq.
  destruct (find _ l) as [o'|] eqn:Hfind.
  - apply find_some in Hfind as [Hin Heq]. f_equal. apply Huniq.
    + by apply list_elem_of_In.
    + by apply String.eqb_eq.
  - apply list_elem_of_In in Ho.
    pose proof (find_none _ _ Hfind o Ho) as Hno. simpl in Hno.
    by rewrite Hid, String.eqb_refl in Hno.
Qed.

(** Edit.  On an engine without faults [handleUpdateTransaction] writes
    the data of the form under the id given: the id is never changed, and
    the creation time is the one of the transaction on display with that
    id; only when no transaction on display has the id is it the time of
    the edit.  After it no transaction is being edited and the display
    shows the month again. *)
Theorem handleUpdateTransaction_keeps_identity (now : Z) (id : string)
    (data : FormData.t) (st : App.State) (d : IDBDatabase) :
  let updated created :=
    Transaction.mk id (FormData.description data) (FormData.amount data)
      (FormData.method data) (FormData.date data) (FormData.time data) created in
  let shown d' st' :=
    App.editingTransaction st' = None ∧ App.isLoading st' = false ∧
    db.getTransactionsByMonth healthy (App.currentMonth st) d' =
      (Resolved (App.transactions st'), d') in
  (∀ o, o ∈ App.transactions st → Transaction.id o = id →
        (∀ o', o' ∈ App.transactions st → Transaction.id o' = id → o' = o) →
        ∃ st' d',
          App.handleUpdateTransaction healthy now id data st d = (Resolved tt, st', d') ∧
          transactions_store d' =
            <[id := updated (Transaction.createdAt o)]> (transactions_store d) ∧
          budgets_store d' = budgets_store d ∧
          shown d' st') ∧
  ((∀ o, o ∈ App.transactions st → Transaction.id o ≠ id) →
   ∃ st' d',
     App.handleUpdateTransaction healthy now id data st d = (Resolved tt, st', d') ∧
     transactions_store d' = <[id := updated now]> (transactions_store d) ∧
     budgets_store d' = budgets_store d ∧
     shown d' st').
Proof.
  intros updated shown. split.
  - intros o Ho Hid Huniq. unfold App.handleUpdateTransaction.
    rewrite (find_unique id _ o Ho Hid Huniq).
    do 2 eexists. split; [reflexivity|]. by repeat split.
  - intros Hnone. unfold App.handleUpdateTransaction.
    destruct (find _ (App.transactions st)) as [o|] eqn:Hfind.
    + apply find_some in Hfind as [Hin Heq].
      destruct (Hnone o); [by apply list_elem_of_In | by apply String.eqb_eq].
    + do 2 eexists. split; [reflexivity|]. by repeat split.
Qed.

Lemma handleUpdateTransaction_keeps_identity_witness :
  let t := Transaction.mk "k" "mercado" 1 DEBIT "2024-05-10" "09:00" 100 in
  let st := {| App.currentMonth := "2024-05"; App.transactions := [t];
               App.budget := 0; App.isLoading := false;
               App.editingTransaction := Some t |} in
  let d := with_transactions empty_db {[ "k" := t ]} in
  let data := FormData.mk "feira" 2 CREDIT "2024-05-12" "11:00" in
  ∃ st' d',
    App.handleUpdateTransaction healthy 999 "k" data st d = (Resolved tt, st', d') ∧
    transactions_store d' =
      <["k" := Transaction.mk "k" "feira" 2 CREDIT "2024-05-12" "11:00" 100]>
        (transactions_store d).
Proof.
  intros t st d data.
  destruct (proj1 (handleUpdateTransaction_keeps_identity 999 "k" data st d) t)
    as (st' & d' & H1 & H2 & _).
  - left.
  - reflexivity.
  - intros o' Ho' _. apply elem_of_cons in Ho' as [Ho'|Ho']; [exact Ho'|].
    apply elem_of_nil in Ho'. destruct Ho'.
  - exists st', d'. split; [exact H1 | exact H2].
Defined.

(** Delete, from the list.  Without the confirmation nothing happens.
    With it, on an engine without faults, the store afterwards holds
    exactly the transactions with another id, none of the transactions on
    display has the id, and a transaction being edited is no longer so
    when it was the one deleted. *)
Theorem handleDeleteTransaction_confirmed (id : string) (st : App.State)
    (d : IDBDatabase) :
  well_formed d →
  App.handleDeleteTransaction healthy false id st d = (Resolved tt, st, d) ∧
  ∃ st' d',
    App.handleDeleteTransaction healthy true id st d = (Resolved tt, st', d') ∧
    (∀ t, holds (transactions_store d') t ↔
          holds (transactions_store d) t ∧ Transaction.id t ≠ id) ∧
    (∀ t, t ∈ App.transactions st' → Transaction.id t ≠ id) ∧
    (∀ e, App.editingTransaction st' = Some e → Transaction.id e ≠ id) ∧
    App.isLoading st' = false.
Proof.
  intros [Hts _]. split; [done|].
  pose proof (holds_delete d id Hts) as Hholds.
  unfold App.handleDeleteTransaction. cbn [negb]. unfold App.after.
  rewrite deleteTransaction_healthy. unfold App.reload. rewrite loadData_healthy.
  do 2 eexists. split; [reflexivity|]. split; [done|]. simpl.
  split; [|split; [|done]].
  - intros t. rewrite sort_Permutation, elem_of_date_index_getAll.
    intros [Ht _]. by apply Hholds in Ht as [_ ?].
  - intros e. destruct (App.editingTransaction st) as [e0|] eqn:He; [|by rewrite He].
    destruct (String.eqb_spec (Transaction.id e0) id) as [Heq|Hne]; simpl.
    + done.
    + rewrite He. by intros [= <-].
Qed.

Lemma handleDeleteTransaction_confirmed_witness :
  let t := Transaction.mk "k" "mercado" 1 DEBIT "2024-05-10" "09:00" 100 in
  let st := {| App.currentMonth := "2024-05"; App.transactions := [t];
               App.budget := 0; App.isLoading := false;
               App.editingTransaction := Some t |} in
  let d := with_transactions empty_db {[ "k" := t ]} in
  ∃ st' d',
    App.handleDeleteTransaction healthy true "k" st d = (Resolved tt, st', d') ∧
    ∀ t', t' ∈ App.transactions st' → Transaction.id t' ≠ "k".
Proof.
  intros t st d.
  destruct (handleDeleteTransaction_confirmed "k" st d)
    as (_ & st' & d' & H1 & _ & H3 & _).
  - split; [|apply keyed_empty]. intros k v. simpl.
    rewrite lookup_singleton_Some. intros [<- <-]. reflexivity.
  - exists st', d'. split; [exact H1 | exact H3].
Defined.

(** Clear, from the settings.  [handleClearData] touches nothing unless
    both questions are answered with yes; then, on an engine without
    faults, the store is emptied and the display shows no transaction and
    a budget of 0. *)
Theorem handleClearData_confirmed (confirm1 confirm2 : bool) (st : App.State)
    (d : IDBDatabase) :
  (confirm1 && confirm2 = false →
   App.handleClearData healthy confirm1 confirm2 st d = (Resolved tt, st, d)) ∧
  (confirm1 && confirm2 = true →
   App.handleClearData healthy confirm1 confirm2 st d =
     (Resolved tt,
      {| App.currentMonth := App.currentMonth st; App.transactions := [];
         App.budget := 0; App.isLoading := false;
         App.editingTransaction := App.editingTransaction st |},
      empty_db)).
Proof.
  by destruct confirm1, confirm2; split.
Qed.

Lemma handleClearData_confirmed_witness :
  let t := Transaction.mk "k" "mercado" 1 DEBIT "2024-05-10" "09:00" 100 in
  let st := {| App.currentMonth := "2024-05"; App.transactions := [t];
               App.budget := 300; App.isLoading := false;
               App.editingTransaction := None |} in
  let d := with_transactions empty_db {[ "k" := t ]} in
  App.handleClearData healthy true false st d = (Resolved tt, st, d) ∧
  (App.handleClearData healthy true true st d).2 = empty_db.
Proof.
  intros t st d. split.
  - apply (proj1 (handleClearData_confirmed true false st d)). reflexivity.
  - rewrite (proj2 (handleClearData_confirmed true true st d)); reflexivity.
Defined.

(** Add, from the form.  On an engine without faults and with an id that
    no stored transaction has, [handleAddTransaction] stores the data of
    the form under that id with the time of the call as creation time,
    keeps what was stored, and the list on display afterwards has the new
    transaction exactly when its date lies in the range of the month on
    display.  With an id that is taken the add is rejected and neither the
    store nor the display changes. *)
Theorem handleAddTransaction_shows (uuid : string) (now : Z) (data : FormData.t)
    (st : App.State) (d : IDBDatabase) :
  let new :=
    Transaction.mk uuid (FormData.description data) (FormData.amount data)
      (FormData.method data) (FormData.date data) (FormData.time data) now in
  well_formed d →
  ((∀ t, holds (transactions_store d) t → Transaction.id t ≠ uuid) →
   ∃ st' d',
     App.handleAddTransaction healthy uuid now data st d = (Resolved tt, st', d') ∧
     transactions_store d' = <[uuid := new]> (transactions_store d) ∧
     (new ∈ App.transactions st' ↔
      String.le (App.currentMonth st ++ "-01") (FormData.date data) ∧
      String.le (FormData.date data) (App.currentMonth st ++ "-31"))) ∧
  (∀ t, holds (transactions_store d) t → Transaction.id t = uuid →
        App.handleAddTransaction healthy uuid now data st d =
          (Rejected ConstraintError, st, d)).
Proof.
  intros new Hwf. split.
  - intros Hfresh.
    assert (transactions_store d !! Transaction.id new = None) as Hnone.
    { by apply lookup_fresh. }
    unfold App.handleAddTransaction, App.after. fold new.
    rewrite (addTransaction_fresh d new Hnone).
    unfold App.reload. rewrite loadData_healthy.
    do 2 eexists. split; [reflexivity|]. split; [done|]. simpl.
    rewrite sort_Permutation, elem_of_date_index_getAll, in_range_le. simpl.
    split; [tauto|]. intros H. split; [|done].
    exists uuid. apply lookup_insert_eq.
  - intros t Ht Hid. destruct Hwf as [Hts _].
    pose proof (keyed_lookup _ _ _ Hts Ht) as Hlk. rewrite Hid in Hlk.
    unfold App.handleAddTransaction, App.after. fold new.
    destruct (addTransaction_taken healthy d new t Hlk) as (e & -> & He).
    by rewrite He.
Qed.

Lemma handleAddTransaction_shows_witness :
  let st := {| App.currentMonth := "2024-05"; App.transactions := [];
               App.budget := 0; App.isLoading := false;
               App.editingTransaction := None |} in
  let data := FormData.mk "mercado" 12.5 DEBIT "2024-06-02" "09:00" in
  ∃ st' d',
    App.handleAddTransaction healthy "u-1" 77 data st empty_db = (Resolved tt, st', d') ∧
    transactions_store d' =
      <["u-1" := Transaction.mk "u-1" "mercado" 12.5 DEBIT "2024-06-02" "09:00" 77]> ∅.
Proof.
  intros st data.
  destruct (proj1 (handleAddTransaction_shows "u-1" 77 data st empty_db
                     well_formed_empty))
    as (st' & d' & H1 & H2 & _).
  - intros t [k Hk]. simpl in Hk. rewrite lookup_empty in Hk. discriminate Hk.
  - exists st', d'. split; [exact H1 | exact H2].
Defined.

(** ** Text fields *)

Lemma only_digits_app a b :
  only_digits (a ++ b) = (only_digits a ++ only_digits b)%string.
Proof.
  induction a as [|c a IH]; [done|]. rewrite str_app_cons. simpl.
  destruct (is_digit c); [|done]. by rewrite str_app_cons, IH.
Qed.

Lemma only_digits_idemp s : only_digits (only_digits s) = only_digits s.
Proof.
  induction s as [|c s IH]; [done|]. simpl.
  destruct (is_digit c) eqn:Hc; [|done]. simpl. by rewrite Hc, IH.
Qed.

(** The amount field and the limit field.  What [handleAmountChange] and
    [handleEditChange] put in the field depends on the digits typed and
    on nothing else: the text and its digits give the same field, a
    character that is no digit typed at the end changes nothing, and a
    text without a digit empties the field.  The other fields of the form
    stay. *)
Theorem amount_field_digits_only (format : string → string) (typed : string)
    (f : TransactionForm.Form) :
  TransactionForm.handleAmountChange format (only_digits typed) f =
    TransactionForm.handleAmountChange format typed f ∧
  Summary.handleEditChange format (only_digits typed) =
    Summary.handleEditChange format typed ∧
  (∀ c, is_digit c = false →
     TransactionForm.handleAmountChange format (typed ++ String c "") f =
       TransactionForm.handleAmountChange format typed f ∧
     Summary.handleEditChange format (typed ++ String c "") =
       Summary.handleEditChange format typed) ∧
  (only_digits typed = "" →
     TransactionForm.amount (TransactionForm.handleAmountChange format typed f) = "" ∧
     Summary.handleEditChange format typed = "") ∧
  TransactionForm.description (TransactionForm.handleAmountChange format typed f) =
    TransactionForm.description f ∧
  TransactionForm.date (TransactionForm.handleAmountChange format typed f) =
    TransactionForm.date f ∧
  TransactionForm.time (TransactionForm.handleAmountChange format typed f) =
    TransactionForm.time f.
Proof.
  unfold TransactionForm.handleAmountChange, Summary.handleEditChange.
  rewrite only_digits_idemp. split; [done|]. split; [done|]. split.
  { intros c Hc. rewrite only_digits_app. simpl. rewrite Hc.
    assert (∀ s, (s ++ "")%string = s) as Hnil.
    { induction s as [|a s IH]; [done|]. by rewrite str_app_cons, IH. }
    by rewrite Hnil. }
  split; [by intros ->|].
  by destruct (only_digits typed =? "")%string.
Qed.

Lemma amount_field_digits_only_witness :
  let f := {| TransactionForm.description := "mercado";
              TransactionForm.amount := "0,12";
              TransactionForm.method := DEBIT;
              TransactionForm.date := "2024-05-10";
              TransactionForm.time := "09:00" |} in
  TransactionForm.handleAmountChange (λ s, s) "0,12x" f =
    TransactionForm.handleAmountChange (λ s, s) "0,12" f ∧
  TransactionForm.amount (TransactionForm.handleAmountChange (λ s, s) "R$ ," f) = "".
Proof.
  intros f. split.
  - apply (proj1 (proj1 (proj2 (proj2 (amount_field_digits_only (λ s, s) "0,12" f)))
                   "x"%char eq_refl)).
  - apply (proj1 (proj1 (proj2 (proj2 (proj2
                   (amount_field_digits_only (λ s, s) "R$ ," f)))) eq_refl)).
Defined.

Lemma split_dash_no_dash s : has_dash s = false → split_dash s = [s].
Proof.
  induction s as [|c s IH]; [done|]. simpl.
  destruct (Ascii.eqb c "-"); [done|]. simpl. by intros ->%IH.
Qed.

Lemma split_dash_app a rest :
  has_dash a = false → split_dash (a ++ "-" ++ rest) = a :: split_dash rest.
Proof.
  induction a as [|c a IH]; [done|]. rewrite str_app_cons. simpl.
  destruct (Ascii.eqb c "-"); [done|]. simpl. by intros ->%IH.
Qed.

(** The date in the list.  [formatDate] of year-month-day, none of the
    three with a hyphen in it, is day/month.  A text with one hyphen only
    has no day and one with none has no month either: "undefined" is
    printed in their place. *)
Theorem formatDate_day_month (year month day : string) :
  has_dash year = false → has_dash month = false → has_dash day = false →
  TransactionList.formatDate (year ++ "-" ++ month ++ "-" ++ day) =
    (day ++ "/" ++ month)%string ∧
  TransactionList.formatDate (year ++ "-" ++ month) =
    ("undefined/" ++ month)%string ∧
  TransactionList.formatDate year = "undefined/undefined".
Proof.
  intros Hy Hm Hd. unfold TransactionList.formatDate.
  rewrite !split_dash_app, !split_dash_no_dash by done. done.
Qed.

Lemma formatDate_day_month_witness :
  TransactionList.formatDate "2024-05-10" = "10/05" ∧
  TransactionList.formatDate "2024-05" = "undefined/05" ∧
  TransactionList.formatDate "2024" = "undefined/undefined".
Proof.
  apply (formatDate_day_month "2024" "05" "10"); reflexivity.
Defined.

(** ** The single-file build *)

(** Restore, in the single-file build.  Its [handleFileChange] checks
    nothing before it calls the import: without the confirmation it does
    nothing, and with it, on an engine without faults, a file without the
    [transactions] field ends in a TypeError with the store emptied,
    where the handler of App.tsx leaves the store as it was. *)
Theorem SingleFile_restore_unchecked (d : IDBDatabase) (data : BackupData.t) :
  BackupData.transactions data = None →
  (∀ eng, SingleFile.handleFileChange eng false data d = (None, d)) ∧
  SingleFile.handleFileChange healthy true data d =
    (Some (Rejected TypeError), empty_db) ∧
  App.handleFileChange healthy data d = (Rejected InvalidBackupFile, d).
Proof.
  intros Hts. split; [done|]. split.
  - unfold SingleFile.handleFileChange. cbn [negb].
    by rewrite (importDatabase_no_transactions d data Hts).
  - unfold App.handleFileChange. by rewrite Hts.
Qed.

Lemma SingleFile_restore_unchecked_witness :
  let t := Transaction.mk "k" "mercado" 1 DEBIT "2024-05-10" "09:00" 100 in
  let d := with_transactions empty_db {[ "k" := t ]} in
  SingleFile.handleFileChange healthy true BackupData.empty_object d =
    (Some (Rejected TypeError), empty_db).
Proof.
  intros t d.
  apply (proj1 (proj2 (SingleFile_restore_unchecked d BackupData.empty_object eq_refl))).
Defined.

(** The two copies of [getMonthlyBudget].  For every engine, store and
    month they are rejected with the same error or resolve to numbers
    that are equal; neither touches the store. *)
Theorem getMonthlyBudget_copies_agree (eng : Engine) (month : string)
    (d : IDBDatabase) :
  (∀ e, db.getMonthlyBudget eng month d = (Rejected e, d) ↔
        SingleFile.getMonthlyBudget eng month d = (Rejected e, d)) ∧
  (∀ q, db.getMonthlyBudget eng month d = (Resolved q, d) →
        ∃ q', SingleFile.getMonthlyBudget eng month d = (Resolved q', d) ∧
              (q' == q)%Q) ∧
  (SingleFile.getMonthlyBudget eng month d).2 = d.
Proof.
  unfold db.getMonthlyBudget, SingleFile.getMonthlyBudget. rewrite !bind_openDB.
  destruct (open_error eng) as [e0|]; [by repeat split|].
  destruct (request_error eng STORE_BUDGETS KGet) as [e0|]; [by repeat split|].
  split; [done|]. split; [|done].
  intros q [= <-]. eexists. split; [reflexivity|].
  destruct (budgets_store d !! month) as [data|]; [|reflexivity].
  destruct (Qeq_bool (MonthlyBudget.limit data) 0) eqn:Hz; [|reflexivity].
  symmetry. by apply Qeq_bool_iff.
Qed.

Lemma getMonthlyBudget_copies_agree_witness :
  let b := MonthlyBudget.mk "2024-05" 0 in
  let d := with_budgets empty_db {[ "2024-05" := b ]} in
  ∃ q', SingleFile.getMonthlyBudget healthy "2024-05" d = (Resolved q', d) ∧
        (q' == 0)%Q.
Proof.
  intros b d.
  apply (proj1 (proj2 (getMonthlyBudget_copies_agree healthy "2024-05" d)) 0%Q).
  reflexivity.
Defined.

(** Restore and the budgets.  After the import, on an engine without
    faults, of a snapshot with both fields and no key twice, the budget
    of a month is the limit the snapshot has for it, and 0 for a month
    the snapshot has no record of, whatever the store had for it. *)
Theorem import_then_budget (d : IDBDatabase) (data : BackupData.t)
    (ts : list Transaction.t) (bs : list MonthlyBudget.t) :
  BackupData.transactions data = Some ts →
  BackupData.budgets data = Some bs →
  NoDup (Transaction.id <$> ts) →
  NoDup (MonthlyBudget.month <$> bs) →
  ∃ d', db.importDatabase healthy data d = (Resolved tt, d') ∧
        (∀ b, b ∈ bs →
           db.getMonthlyBudget healthy (MonthlyBudget.month b) d' =
             (Resolved (MonthlyBudget.limit b), d')) ∧
        (∀ month, month ∉ MonthlyBudget.month <$> bs →
           db.getMonthlyBudget healthy month d' = (Resolved 0%Q, d')).
Proof.
  intros Hts Hbs Hnd1 Hnd2. eexists.
  split; [by apply (importDatabase_healthy d data ts bs)|].
  unfold db.getMonthlyBudget. split.
  - intros b Hb. rewrite bind_openDB. simpl.
    by rewrite (proj2 (records_map_lookup MonthlyBudget.month bs _ b Hnd2) (conj Hb eq_refl)).
  - intros month Hmonth. rewrite bind_openDB. simpl.
    by rewrite (records_map_fresh MonthlyBudget.month bs month Hmonth).
Qed.

Lemma import_then_budget_witness :
  let old := MonthlyBudget.mk "2024-04" 700 in
  let b := MonthlyBudget.mk "2024-05" 1500 in
  let data := BackupData.mk (Some 1) (Some 0) (Some []) (Some [b]) in
  ∃ d', db.importDatabase healthy data (with_budgets empty_db {[ "2024-04" := old ]})
          = (Resolved tt, d') ∧
        db.getMonthlyBudget healthy "2024-04" d' = (Resolved 0%Q, d').
Proof.
  intros old b data.
  destruct (import_then_budget (with_budgets empty_db {[ "2024-04" := old ]})
              data [] [b]) as (d' & H1 & _ & H3).
  - reflexivity.
  - reflexivity.
  - constructor.
  - simpl. repeat constructor. intros H. apply elem_of_nil in H. destruct H.
  - exists d'. split; [exact H1|]. apply H3. simpl.
    intros H. apply elem_of_cons in H as [H|H]; [discriminate H|].
    apply elem_of_nil in H. destruct H.
Defined.

(** ** Month navigation *)

Lemma truncate_inject (z : Z) : App.truncate (inject_Z z) = z.
Proof. unfold App.truncate. simpl. apply Z.quot_1_r. Qed.

Lemma truncate_monthIndex (m offset : Z) :
  App.truncate (inject_Z m - 1 + inject_Z offset) = m - 1 + offset.
Proof.
  unfold App.truncate. simpl. rewrite Z.quot_1_r. lia.
Qed.

Lemma isoSlice_four_digits (year month : Z) :
  0 ≤ year ≤ 9999 →
  App.isoSlice year month = (App.pad 4 year ++ "-" ++ App.pad 2 (month + 1))%string.
Proof.
  intros Hy. unfold App.isoSlice, App.isoYear.
  replace ((0 <=? year) && (year <=? 9999)) with true
    by (symmetry; apply andb_true_iff; split; apply Z.leb_le; lia).
  reflexivity.
Qed.

(** Month navigation.  The month on display being year-month as two
    numbers, the year not one of 0 to 99, [changeMonth] moves by [offset]
    months where local time is not ahead of UTC, and by one month less
    where it is: there the button for the next month leaves the month of
    the first of which the new date was made, the one on display, and the
    button for the month before goes two months back.  No transaction is
    being edited afterwards. *)
Theorem changeMonth_moves (Number : string → number) (zone offset : Z)
    (st : App.State) (ys ms : string) (y m : Z) :
  App.currentMonth st = (ys ++ "-" ++ ms)%string →
  has_dash ys = false → has_dash ms = false →
  Number ys = Num (inject_Z y) → Number ms = Num (inject_Z m) →
  ¬ (0 ≤ y ≤ 99) →
  let months := 12 * y + (m - 1) + offset - (if 0 <? zone then 1 else 0) in
  0 ≤ months / 12 ≤ 9999 →
  ∃ st',
    App.changeMonth Number zone offset st = Some st' ∧
    App.currentMonth st' =
      (App.pad 4 (months / 12) ++ "-" ++ App.pad 2 (months mod 12 + 1))%string ∧
    App.editingTransaction st' = None ∧
    (0 < zone → offset = 1 → 1 ≤ m ≤ 12 →
     App.currentMonth st' = (App.pad 4 y ++ "-" ++ App.pad 2 m)%string).
Proof.
  intros Hcur Hys Hms Hy Hm Hquirk months Hrange.
  unfold App.changeMonth. rewrite Hcur, (split_dash_app ys ms Hys).
  rewrite (split_dash_no_dash ms Hms). simpl lookup. cbv iota.
  rewrite Hy, Hm. cbn [App.monthIndex].
  rewrite truncate_inject, truncate_monthIndex.
  replace ((0 <=? y) && (y <=? 99)) with false
    by (symmetry; apply andb_false_iff;
        destruct (Z.leb_spec 0 y), (Z.leb_spec y 99); auto; lia).
  cbv zeta.
  assert (12 * (y + (m - 1 + offset) / 12) + (m - 1 + offset) mod 12
          = 12 * y + (m - 1) + offset) as ->.
  { pose proof (Z.div_mod (m - 1 + offset) 12). lia. }
  assert ((if 0 <? zone then 12 * y + (m - 1) + offset - 1
           else 12 * y + (m - 1) + offset) = months) as ->.
  { unfold months. destruct (0 <? zone); lia. }
  eexists. split; [reflexivity|]. simpl App.currentMonth.
  rewrite isoSlice_four_digits by done.
  split; [done|]. split; [done|].
  intros Hzone -> Hm12.
  assert (months = 12 * y + (m - 1)) as ->.
  { unfold months. apply Z.ltb_lt in Hzone. rewrite Hzone. lia. }
  replace ((12 * y + (m - 1)) / 12) with y
    by (apply (Z.div_unique _ 12 y (m - 1)); lia).
  replace ((12 * y + (m - 1)) mod 12 + 1) with m; [done|].
  rewrite <-(Z.mod_unique (12 * y + (m - 1)) 12 y (m - 1)); lia.
Qed.

Lemma changeMonth_moves_witness :
  let st := {| App.currentMonth := "2024-12"; App.transactions := [];
               App.budget := 0; App.isLoading := false;
               App.editingTransaction := None |} in
  (∃ st', App.changeMonth Number_sample (-180) 1 st = Some st' ∧
          App.currentMonth st' = "2025-01") ∧
  (∃ st', App.changeMonth Number_sample 60 1 st = Some st' ∧
          App.currentMonth st' = "2024-12").
Proof.
  intros st. split.
  - destruct (changeMonth_moves Number_sample (-180) 1 st "2024" "12" 2024 12)
      as (st' & H1 & H2 & _); try reflexivity.
    + lia.
    + vm_compute. split; discriminate.
    + exists st'. split; [exact H1 | exact H2].
  - destruct (changeMonth_moves Number_sample 60 1 st "2024" "12" 2024 12)
      as (st' & H1 & H2 & _); try reflexivity.
    + lia.
    + vm_compute. split; discriminate.
    + exists st'. split; [exact H1 | exact H2].
Defined.
